(** * A shallow embedding of the e-book reader

  The development follows the three TypeScript sources of the reader:
  the content types ([BookSection], [BookChapter]), the application
  shell [App] (settings, bookmarks, navigation, font size) and the
  [Reader] component (narration text, play/pause/stop controller).

  JavaScript strings are embedded as [string], the bytes of their UTF-8
  form, and [text.length] as the number of UTF-16 code units those bytes
  stand for; a JavaScript number that
  holds an integer or NaN is embedded as [jsnum]; the narration progress,
  a JavaScript double, is embedded as an exact rational. *)

From Stdlib Require Import List String Ascii Bool ZArith QArith Qminmax Lia.
From Stdlib Require Import Permutation.
From Stdlib Require Import DecimalString DecimalZ DecimalPos.
Import ListNotations.

Open Scope string_scope.

(* ------------------------------------------------------------------ *)
(** ** The JavaScript built-ins the sources call *)
(* ------------------------------------------------------------------ *)

Module JS.

(** The line feed written [\n] in the sources. *)
Definition LF : string := String (ascii_of_nat 10) EmptyString.

(** [s.length]: the number of UTF-16 code units of the string whose UTF-8
    bytes are [s].  A byte below 128 and the first byte of a two- or
    three-byte sequence stand for one unit, the first byte of a four-byte
    sequence for the two units of a surrogate pair, a continuation byte for
    none. *)
Fixpoint utf16Length (s : string) : nat :=
  match s with
  | EmptyString => 0
  | String c s' =>
      let n := nat_of_ascii c in
      (if (n <? 128)%nat then 1
       else if (n <? 192)%nat then 0
       else if (n <? 240)%nat then 1
       else 2) + utf16Length s'
  end.

(** A number as the settings code sees it: an integer or NaN. *)
Inductive jsnum : Type :=
| NaN : jsnum
| Num : Z -> jsnum.

(** [a + b], [Math.min(a, b)] and [Math.max(a, b)]: NaN is absorbing. *)
Definition add (a b : jsnum) : jsnum :=
  match a, b with
  | Num x, Num y => Num (x + y)
  | _, _ => NaN
  end.

Definition sub (a b : jsnum) : jsnum :=
  match a, b with
  | Num x, Num y => Num (x - y)
  | _, _ => NaN
  end.

Definition Math_min (a b : jsnum) : jsnum :=
  match a, b with
  | Num x, Num y => Num (Z.min x y)
  | _, _ => NaN
  end.

Definition Math_max (a b : jsnum) : jsnum :=
  match a, b with
  | Num x, Num y => Num (Z.max x y)
  | _, _ => NaN
  end.

(** [Array.prototype.includes] on an array of strings. *)
Fixpoint includes (l : list string) (x : string) : bool :=
  match l with
  | [] => false
  | y :: l' => if String.eqb y x then true else includes l' x
  end.

(** [Array.prototype.findIndex]: the first index whose element passes the
    test, or -1. *)
Fixpoint findIndex_from {A : Type} (p : A -> bool) (l : list A) (i : Z) : Z :=
  match l with
  | [] => (-1)%Z
  | a :: l' => if p a then i else findIndex_from p l' (i + 1)%Z
  end.

Definition findIndex {A : Type} (p : A -> bool) (l : list A) : Z :=
  findIndex_from p l 0%Z.

(** [arr[i]]: [None] stands for [undefined]. *)
Definition at_index {A : Type} (l : list A) (i : Z) : option A :=
  if (i <? 0)%Z then None else nth_error l (Z.to_nat i).

(** The white space [parseInt] skips, restricted to one-byte characters. *)
Definition isWhiteSpace (c : ascii) : bool :=
  let n := nat_of_ascii c in
  ((9 <=? n) && (n <=? 13) || (n =? 32))%nat.

Definition digitValue (c : ascii) : option Z :=
  let n := nat_of_ascii c in
  if ((48 <=? n) && (n <=? 57))%nat then Some (Z.of_nat (n - 48)) else None.

Fixpoint trimStart (s : string) : string :=
  match s with
  | String c s' => if isWhiteSpace c then trimStart s' else s
  | EmptyString => s
  end.

(** The longest prefix of decimal digits, read left to right; [None] when
    no digit has been read yet. *)
Fixpoint readDigits (s : string) (acc : option Z) : option Z :=
  match s with
  | String c s' =>
      match digitValue c with
      | Some d =>
          readDigits s' (Some (match acc with
                               | Some a => 10 * a + d
                               | None => d
                               end)%Z)
      | None => acc
      end
  | EmptyString => acc
  end.

(** [parseInt(s, 10)]: leading white space, an optional sign, then the
    longest run of decimal digits; NaN when there is no digit. *)
Definition parseInt10 (s : string) : jsnum :=
  let t := trimStart s in
  let '(sign, body) :=
    match t with
    | String "-" r => ((-1)%Z, r)
    | String "+" r => (1%Z, r)
    | _ => (1%Z, t)
    end in
  match readDigits body None with
  | Some n => Num (sign * n)
  | None => NaN
  end.

(** What a call that may throw gives back. *)
Inductive completion (A : Type) : Type :=
| Normal : A -> completion A
| TypeError : completion A.
Arguments Normal {A} _.
Arguments TypeError {A}.

End JS.

(* ------------------------------------------------------------------ *)
(** ** The content model (types.ts) *)
(* ------------------------------------------------------------------ *)

Module Types.

(** One element of [BookSection.content]. *)
Inductive Block : Type :=
| Plain (text : string)
| Header (text : string)
| ListBlock (items : list string)
| Quote (text : string) (source : option string)
| Footnote (text : string).

Record BookSection : Type := mkSection {
  id : string;
  title : string;
  content : list Block
}.

Record BookChapter : Type := mkChapter {
  chapter_id : string;
  chapter_title : string;
  sections : list BookSection
}.

End Types.

(* ------------------------------------------------------------------ *)
(** ** The application shell (App.tsx) *)
(* ------------------------------------------------------------------ *)

Module App.
Import JS Types.

Definition FONT_SIZES : list string :=
  ["prose-sm"; "prose-base"; "prose-lg"; "prose-xl"; "prose-2xl"].

(** What [localStorage.getItem(key)] does: it throws, returns [null], or
    returns the stored string. *)
Inductive StorageRead : Type :=
| Throws
| Missing
| Stored (saved : string).

(** A value produced by [JSON.parse]. *)
#[local] Unset Elimination Schemes.
Inductive JSValue : Type :=
| JNull
| JBool (b : bool)
| JNumber (n : Z)
| JString (s : string)
| JArray (elems : list JSValue)
| JObject (fields : list (string * JSValue)).
#[local] Set Elimination Schemes.

(** Initial [fontSizeIndex]:
    [saved !== null ? parseInt(saved, 10) : 2], and 2 in the [catch]. *)
Definition initFontSizeIndex (r : StorageRead) : jsnum :=
  match r with
  | Throws => Num 2
  | Missing => Num 2
  | Stored saved => parseInt10 saved
  end.

(** Initial [isDarkMode]: [saved === 'true'], and [false] in the [catch]. *)
Definition initDarkMode (r : StorageRead) : bool :=
  match r with
  | Throws => false
  | Missing => false
  | Stored saved => String.eqb saved "true"
  end.

(** Initial [bookmarks]: [saved ? JSON.parse(saved) : []], and [[]] in the
    [catch].  [JSON_parse] gives [None] where [JSON.parse] throws. *)
Definition initBookmarks (JSON_parse : string -> option JSValue)
    (r : StorageRead) : JSValue :=
  match r with
  | Throws => JArray []
  | Missing => JArray []
  | Stored saved =>
      if String.eqb saved "" then JArray []
      else match JSON_parse saved with
           | Some v => v
           | None => JArray []
           end
  end.

(** The updater that [toggleBookmark] hands to [setBookmarks]. *)
Definition toggleBookmark (sectionId : string) (prev : list string)
  : list string :=
  if includes prev sectionId
  then filter (fun id => negb (String.eqb id sectionId)) prev
  else prev ++ [sectionId].

(** The identifier the application starts on: [useState('intro-1')]. *)
Definition initialSectionId : string := "intro-1".

Definition isTOC (activeSectionId : string) : bool :=
  String.eqb activeSectionId "TOC".

(** The test [s => s.id === activeSectionId] of the two [findIndex] calls. *)
Definition hasId (activeSectionId : string) : BookSection -> bool :=
  fun s => String.eqb (id s) activeSectionId.

Record ChapterInfo : Type := mkInfo {
  info_title : string;
  info_index : Z;
  info_total : nat;
  info_section : option BookSection
}.

(** The [for ... of] loop of [activeChapterInfo]: the first chapter that
    holds a section with the requested identifier. *)
Fixpoint searchChapters (bookData : list BookChapter)
    (activeSectionId : string) : option ChapterInfo :=
  match bookData with
  | [] => None
  | chapter :: rest =>
      let index :=
        findIndex (hasId activeSectionId) (sections chapter) in
      if negb (index =? -1)%Z
      then Some {| info_title := chapter_title chapter;
                   info_index := index;
                   info_total := List.length (sections chapter);
                   info_section := at_index (sections chapter) index |}
      else searchChapters rest activeSectionId
  end.

(** [activeChapterInfo]: [null] on the table of contents, the chapter
    found by the loop, else the fallback on [bookData[0]] (reading a
    property of [undefined] throws when there is no chapter). *)
Definition activeChapterInfo (bookData : list BookChapter)
    (activeSectionId : string) : completion (option ChapterInfo) :=
  if isTOC activeSectionId then Normal None
  else match searchChapters bookData activeSectionId with
       | Some info => Normal (Some info)
       | None =>
           match bookData with
           | firstChapter :: _ =>
               Normal (Some {| info_title := chapter_title firstChapter;
                               info_index := 0;
                               info_total := List.length (sections firstChapter);
                               info_section :=
                                 at_index (sections firstChapter) 0 |})
           | [] => TypeError
           end
       end.

(** [activeSection = activeChapterInfo?.section]. *)
Definition activeSection (bookData : list BookChapter)
    (activeSectionId : string) : completion (option BookSection) :=
  match activeChapterInfo bookData activeSectionId with
  | Normal (Some info) => Normal (info_section info)
  | Normal None => Normal None
  | TypeError => TypeError
  end.

(** What the footer buttons hold: a section of the book, or an object
    literal with an [id] and a [title] only. *)
Inductive NavLink : Type :=
| LinkSection (s : BookSection)
| LinkStub (link_id link_title : string).

Definition navId (l : NavLink) : string :=
  match l with
  | LinkSection s => id s
  | LinkStub i _ => i
  end.

Definition navTitle (l : NavLink) : string :=
  match l with
  | LinkSection s => title s
  | LinkStub _ t => t
  end.

Record PrevNext : Type := mkPrevNext {
  prevSection : option NavLink;
  nextSection : option NavLink
}.

Definition allSections (bookData : list BookChapter) : list BookSection :=
  flat_map sections bookData.

Definition tocLink : NavLink := LinkStub "TOC" "Оглавление".

(** The memo that computes [prevSection] and [nextSection]. *)
Definition prevNext (bookData : list BookChapter)
    (activeSectionId : string) : completion PrevNext :=
  let all := allSections bookData in
  if isTOC activeSectionId then
    match at_index all 0 with
    | Some first =>
        Normal {| prevSection := None;
                  nextSection := Some (LinkStub (id first) (title first)) |}
    | None => TypeError
    end
  else
    let currentIndex := findIndex (hasId activeSectionId) all in
    Normal {| prevSection :=
                if (currentIndex >? 0)%Z
                then option_map LinkSection (at_index all (currentIndex - 1))
                else Some tocLink;
              nextSection :=
                if (currentIndex <? Z.of_nat (List.length all) - 1)%Z
                then option_map LinkSection (at_index all (currentIndex + 1))
                else None |}.

(** The identifier-to-link reading of the two footer buttons: where the
    next and the previous button lead from [activeSectionId]. *)
Definition successor (bookData : list BookChapter) (activeSectionId : string)
  : option NavLink :=
  match prevNext bookData activeSectionId with
  | Normal pn => nextSection pn
  | TypeError => None
  end.

Definition predecessor (bookData : list BookChapter)
    (activeSectionId : string) : option NavLink :=
  match prevNext bookData activeSectionId with
  | Normal pn => prevSection pn
  | TypeError => None
  end.

(** The updaters of [increaseFont] and [decreaseFont]. *)
Definition increaseFont (prev : jsnum) : jsnum :=
  Math_min (add prev (Num 1)) (Num (Z.of_nat (List.length FONT_SIZES) - 1)).

Definition decreaseFont (prev : jsnum) : jsnum :=
  Math_max (sub prev (Num 1)) (Num 0).

(** A press on one of the two font buttons. *)
Inductive FontOp : Type := Increase | Decrease.

Definition fontStep (level : jsnum) (op : FontOp) : jsnum :=
  match op with
  | Increase => increaseFont level
  | Decrease => decreaseFont level
  end.

Definition fontRun (ops : list FontOp) (level : jsnum) : jsnum :=
  fold_left fontStep ops level.

(** The level indexes [FONT_SIZES]. *)
Definition levelInRange (level : jsnum) : Prop :=
  match level with
  | Num z => (0 <= z <= Z.of_nat (List.length FONT_SIZES) - 1)%Z
  | NaN => False
  end.

End App.

(* ------------------------------------------------------------------ *)
(** ** The reader and its narration controller (Reader.tsx) *)
(* ------------------------------------------------------------------ *)

Module Reader.
Import JS Types.

(** The body of the [forEach] over [block.items]. *)
Definition appendItem (text item : string) : string :=
  text ++ (item ++ ". " ++ LF).

(** The body of the [forEach] over [section.content]. *)
Definition appendBlock (text : string) (block : Block) : string :=
  match block with
  | Plain b => text ++ (b ++ " " ++ LF)
  | Header t => text ++ (t ++ ". " ++ LF)
  | ListBlock items => fold_left appendItem items text
  | Quote t _ => text ++ (t ++ ". " ++ LF)
  | Footnote _ => text
  end.

Definition extractText (section : BookSection) : string :=
  fold_left appendBlock (content section) (title section ++ ". " ++ LF ++ LF).

(** What the [map] of the rendered view shows of one block: its kind and
    every string it puts on the page. *)
Inductive Rendered : Type :=
| RParagraph (text : string)
| RHeading (text : string)
| RList (items : list string)
| RFigure (text : string) (cite : option string)
| RFootnote (label text : string).

(** [block.source && <figcaption>...]: an empty source shows no caption. *)
Definition renderBlock (block : Block) : Rendered :=
  match block with
  | Plain b => RParagraph b
  | Header t => RHeading t
  | ListBlock items => RList items
  | Quote t source =>
      RFigure t (match source with
                 | Some src => if String.eqb src "" then None else Some src
                 | None => None
                 end)
  | Footnote t => RFootnote "Сноска:" t
  end.

(** A request sent to [window.speechSynthesis]. *)
Inductive HostRequest : Type :=
| Cancel
| Speak (text lang : string) (rate pitch : Q)
| Pause
| Resume.

(** The state of one mounted reader: the [section] prop, the four state
    cells, the two refs ([synthRef] holds the host facility or nothing,
    [utteranceRef] the text of the utterance in flight), the requests the
    host has received and the lines written by [console.error]. *)
Record State : Type := mkState {
  section : BookSection;
  showPlayer : bool;
  isPlaying : bool;
  isPaused : bool;
  progress : Q;
  synthRef : bool;
  utteranceRef : option string;
  host : list HostRequest;
  console : list string
}.

Definition setShowPlayer (b : bool) (s : State) : State :=
  mkState (section s) b (isPlaying s) (isPaused s) (progress s)
          (synthRef s) (utteranceRef s) (host s) (console s).

Definition setIsPlaying (b : bool) (s : State) : State :=
  mkState (section s) (showPlayer s) b (isPaused s) (progress s)
          (synthRef s) (utteranceRef s) (host s) (console s).

Definition setIsPaused (b : bool) (s : State) : State :=
  mkState (section s) (showPlayer s) (isPlaying s) b (progress s)
          (synthRef s) (utteranceRef s) (host s) (console s).

Definition setProgress (p : Q) (s : State) : State :=
  mkState (section s) (showPlayer s) (isPlaying s) (isPaused s) p
          (synthRef s) (utteranceRef s) (host s) (console s).

Definition setUtterance (u : option string) (s : State) : State :=
  mkState (section s) (showPlayer s) (isPlaying s) (isPaused s) (progress s)
          (synthRef s) u (host s) (console s).

Definition setSection (sec : BookSection) (s : State) : State :=
  mkState sec (showPlayer s) (isPlaying s) (isPaused s) (progress s)
          (synthRef s) (utteranceRef s) (host s) (console s).

(** A call on [synthRef.current]. *)
Definition request (r : HostRequest) (s : State) : State :=
  mkState (section s) (showPlayer s) (isPlaying s) (isPaused s) (progress s)
          (synthRef s) (utteranceRef s) (host s ++ [r]) (console s).

Definition consoleError (msg : string) (s : State) : State :=
  mkState (section s) (showPlayer s) (isPlaying s) (isPaused s) (progress s)
          (synthRef s) (utteranceRef s) (host s) (console s ++ [msg]).

(** The reader as it is after its first render and its mount effects, which
    store [window.speechSynthesis] (present or not) and run [handleStop]. *)
Definition mount (sec : BookSection) (synth : bool) : State :=
  mkState sec false false false 0 synth None
          (if synth then [Cancel] else []) [].

Definition handlePlay (s : State) : State :=
  if negb (synthRef s) then s
  else if isPaused s then
    setIsPlaying true (setIsPaused false (request Resume s))
  else if isPlaying s then
    setIsPlaying false (setIsPaused true (request Pause s))
  else
    let text := extractText (section s) in
    if String.eqb text "" then s
    else
      setIsPaused false
        (setIsPlaying true
           (request (Speak text "ru-RU" 1 1)
              (setUtterance (Some text) (request Cancel s)))).

Definition handleStop (s : State) : State :=
  setUtterance None
    (setProgress 0
       (setIsPaused false
          (setIsPlaying false
             (if synthRef s then request Cancel s else s)))).

(** [utterance.onboundary], for the utterance made from [text]. *)
Definition onboundary (text name : string) (charIndex : N) (s : State)
  : State :=
  if String.eqb name "word" || String.eqb name "sentence" then
    let len := if (0 <? utf16Length text)%nat
               then utf16Length text else 1%nat in
    let percentage :=
      (inject_Z (Z.of_N charIndex) / inject_Z (Z.of_nat len)) * 100 in
    setProgress (Qmin percentage 100) s
  else s.

(** [utterance.onend]. *)
Definition onend (s : State) : State :=
  setUtterance None (setProgress 100 (setIsPaused false (setIsPlaying false s))).

(** [utterance.onerror]. *)
Definition onerror (error : string) (s : State) : State :=
  if String.eqb error "canceled" || String.eqb error "interrupted" then s
  else
    setIsPaused false
      (setIsPlaying false
         (consoleError ("Speech synthesis error: " ++ error) s)).

(** The effect on [section.id]: it runs when a render brings a section with
    another identifier. *)
Definition sectionEffect (s : State) : State :=
  setShowPlayer false (handleStop s).

Definition changeSection (sec : BookSection) (s : State) : State :=
  if String.eqb (id sec) (id (section s)) then setSection sec s
  else sectionEffect (setSection sec s).

(** The loudspeaker button and the close button of the player panel. *)
Definition togglePlayer (s : State) : State :=
  setShowPlayer (negb (showPlayer s)) s.

Definition closePlayer (s : State) : State :=
  setShowPlayer false (handleStop s).

(** The three states of the controller, read off the two flags. *)
Inductive Playback : Type := Idle | Playing | Paused.

Definition playback (s : State) : Playback :=
  if isPlaying s then Playing
  else if isPaused s then Paused
  else Idle.

(** Everything that can happen to a mounted reader. *)
Inductive Op : Type :=
| OpPlay
| OpStop
| OpSectionChange (sec : BookSection)
| OpBoundary (text name : string) (charIndex : N)
| OpEnd
| OpError (error : string)
| OpTogglePlayer
| OpClosePlayer.

Definition step (s : State) (op : Op) : State :=
  match op with
  | OpPlay => handlePlay s
  | OpStop => handleStop s
  | OpSectionChange sec => changeSection sec s
  | OpBoundary text name charIndex => onboundary text name charIndex s
  | OpEnd => onend s
  | OpError error => onerror error s
  | OpTogglePlayer => togglePlayer s
  | OpClosePlayer => closePlayer s
  end.

Definition run (ops : list Op) (s : State) : State :=
  fold_left step ops s.

(** The states a reader can be in. *)
Inductive reachable : State -> Prop :=
| reach_mount : forall sec synth, reachable (mount sec synth)
| reach_step : forall s op, reachable s -> reachable (step s op).

(** The two host callbacks that write a progress reported by the host. *)
Definition reportsProgress (op : Op) : bool :=
  match op with
  | OpBoundary _ _ _ => true
  | OpEnd => true
  | _ => false
  end.

(** The states in which the host has reported no progress since the reader
    was mounted or last stopped: those reached from a mount, a stop, a
    closing of the panel or a change to a section with another identifier
    through operations other than the two callbacks above. *)
Inductive sinceReset : State -> Prop :=
| since_mount : forall sec synth, sinceReset (mount sec synth)
| since_stop : forall s, reachable s -> sinceReset (handleStop s)
| since_close : forall s, reachable s -> sinceReset (closePlayer s)
| since_change : forall s sec,
    reachable s -> String.eqb (id sec) (id (section s)) = false ->
    sinceReset (changeSection sec s)
| since_step : forall s op,
    sinceReset s -> reportsProgress op = false -> sinceReset (step s op).

End Reader.

(* ------------------------------------------------------------------ *)
(** ** A small book to run the definitions on *)
(* ------------------------------------------------------------------ *)

Module Sample.
Import Types.

Definition intro1 : BookSection :=
  mkSection "intro-1" "Preface"
    [Plain "Opening words."; Quote "Seek knowledge." (Some "A saying")].

Definition intro2 : BookSection :=
  mkSection "intro-2" "Terms"
    [Header "Words"; ListBlock ["contract"; "dower"]; Footnote "See the glossary."].

Definition marriage1 : BookSection :=
  mkSection "marriage-1" "Conditions" [Plain "There are four conditions."].

Definition marriage2 : BookSection :=
  mkSection "marriage-2" "Witnesses" [Plain "Two witnesses attend."].

Definition book : list BookChapter :=
  [mkChapter "intro" "Introduction" [intro1; intro2];
   mkChapter "marriage" "Marriage" [marriage1; marriage2]].

(** A book none of whose sections carries the identifier the application
    starts on. *)
Definition foreword1 : BookSection :=
  mkSection "foreword-1" "Foreword" [Plain "To the reader."].

Definition foreword2 : BookSection :=
  mkSection "foreword-2" "Sources" [ListBlock ["first"; "second"]].

Definition bookWithoutIntro : list BookChapter :=
  [mkChapter "foreword" "Before the text" [foreword1; foreword2];
   mkChapter "marriage" "Marriage" [marriage1; marriage2]].

End Sample.

(* ------------------------------------------------------------------ *)
(** ** Persistence of the settings (App.tsx) *)
(* ------------------------------------------------------------------ *)

Module Settings.
Import JS Types App.

(** [Number.MAX_SAFE_INTEGER], 2^53 - 1. *)
Definition MAX_SAFE_INTEGER : Z := 9007199254740991.

(** The numbers whose printing is followed here: NaN and the integers that
    a double holds exactly and prints in plain decimal. *)
Definition isSafeOrNaN (n : jsnum) : bool :=
  match n with
  | NaN => true
  | Num z => ((- MAX_SAFE_INTEGER <=? z) && (z <=? MAX_SAFE_INTEGER))%Z
  end.

(** [n.toString()] of NaN or of a safe integer; [None] for the other
    integers, which are printed from their double, in exponent form from
    10^21 on, and are not followed here. *)
Definition numberToString (n : jsnum) : option string :=
  if isSafeOrNaN n then
    Some (match n with
          | NaN => "NaN"
          | Num z => NilEmpty.string_of_int (Z.to_int z)
          end)
  else None.

(** [b.toString()]. *)
Definition boolToString (b : bool) : string :=
  if b then "true" else "false".

(** The local storage: what is stored under each key. *)
Definition Storage : Type := string -> option string.

Definition emptyStorage : Storage := fun _ => None.

(** [localStorage.setItem(key, value)] on a storage that takes the write. *)
Definition setItem (st : Storage) (key value : string) : Storage :=
  fun k => if String.eqb k key then Some value else st k.

(** [localStorage.getItem(key)] on a storage that can be read. *)
Definition getItem (st : Storage) (key : string) : StorageRead :=
  match st key with
  | Some saved => Stored saved
  | None => Missing
  end.

(** The effects that run when [isDarkMode] and [fontSizeIndex] change; the
    second has no image where the printing of the level is not followed. *)
Definition persistDarkMode (st : Storage) (isDarkMode : bool) : Storage :=
  setItem st "darkMode" (boolToString isDarkMode).

Definition persistFontSizeIndex (st : Storage) (fontSizeIndex : jsnum)
  : option Storage :=
  match numberToString fontSizeIndex with
  | Some printed => Some (setItem st "fontSizeIndex" printed)
  | None => None
  end.

(** The two initialisers as they run at the next start. *)
Definition loadFontSizeIndex (st : Storage) : jsnum :=
  initFontSizeIndex (getItem st "fontSizeIndex").

Definition loadDarkMode (st : Storage) : bool :=
  initDarkMode (getItem st "darkMode").

(** [toggleDarkMode]'s updater. *)
Definition toggleDarkMode (prev : bool) : bool := negb prev.

(** [a === b] on numbers. *)
Definition strictEq (a b : jsnum) : bool :=
  match a, b with
  | Num x, Num y => (x =? y)%Z
  | _, _ => false
  end.

(** The [disabled] attribute of the two font buttons. *)
Definition decreaseDisabled (fontSizeIndex : jsnum) : bool :=
  strictEq fontSizeIndex (Num 0).

Definition increaseDisabled (fontSizeIndex : jsnum) : bool :=
  strictEq fontSizeIndex (Num (Z.of_nat (List.length FONT_SIZES) - 1)).

(** [FONT_SIZES[fontSizeIndex]], the [fontSizeClass] prop of the reader;
    [None] stands for [undefined]. *)
Definition fontSizeClass (fontSizeIndex : jsnum) : option string :=
  match fontSizeIndex with
  | Num z => at_index FONT_SIZES z
  | NaN => None
  end.

(** [isBookmarked], as passed to the reader. *)
Definition isBookmarked (bookmarks : list string) (sectionId : string)
  : bool :=
  includes bookmarks sectionId.

(** The bookmark list after a run of presses on the bookmark button, each
    on the section shown at that time. *)
Definition toggleAll (sectionIds : list string) (bookmarks : list string)
  : list string :=
  fold_left (fun prev sectionId => toggleBookmark sectionId prev)
            sectionIds bookmarks.

End Settings.

(* ------------------------------------------------------------------ *)
(** ** Moving through the book (App.tsx, Sidebar.tsx) *)
(* ------------------------------------------------------------------ *)

Module Nav.
Import JS Types App.

(** The [onClick] of the next button, [setActiveSectionId(nextSection.id)];
    [None] where the button is not rendered. *)
Definition pressNext (bookData : list BookChapter) (activeSectionId : string)
  : option string :=
  option_map navId (successor bookData activeSectionId).

(** The [onClick] of the previous button. *)
Definition pressPrev (bookData : list BookChapter) (activeSectionId : string)
  : option string :=
  option_map navId (predecessor bookData activeSectionId).

(** The identifiers shown by pressing the next button as long as there is
    one, at most [presses] times. *)
Fixpoint readForward (presses : nat) (bookData : list BookChapter)
    (activeSectionId : string) : list string :=
  match presses with
  | O => []
  | S presses' =>
      match pressNext bookData activeSectionId with
      | Some next => next :: readForward presses' bookData next
      | None => []
      end
  end.

(** The same with the previous button. *)
Fixpoint readBackward (presses : nat) (bookData : list BookChapter)
    (activeSectionId : string) : list string :=
  match presses with
  | O => []
  | S presses' =>
      match pressPrev bookData activeSectionId with
      | Some prev => prev :: readBackward presses' bookData prev
      | None => []
      end
  end.

(** [bookmarkedSections] of the sidebar: for each bookmark, in the order of
    the bookmark list, the identifier and title of the first section that
    carries it; a bookmark that no section carries is left out. *)
Definition bookmarkedSections (data : list BookChapter)
    (bookmarks : list string) : list (string * string) :=
  if (List.length bookmarks =? 0)%nat then []
  else
    let allSections := flat_map sections data in
    fold_left
      (fun results bookmark =>
         match find (hasId bookmark) allSections with
         | Some found => (results ++ [(id found, title found)])%list
         | None => results
         end)
      bookmarks [].

End Nav.

(* ------------------------------------------------------------------ *)
(** ** What the host is asked to do (Reader.tsx) *)
(* ------------------------------------------------------------------ *)

Module HostLog.
Import Reader.

(** Every [Speak] of a log comes right after a [Cancel]; [afterCancel]
    tells whether the request before the log was one. *)
Fixpoint cancelsBeforeSpeak (afterCancel : bool) (log : list HostRequest)
  : bool :=
  match log with
  | [] => true
  | Cancel :: rest => cancelsBeforeSpeak true rest
  | Speak _ _ _ _ :: rest => afterCancel && cancelsBeforeSpeak false rest
  | _ :: rest => cancelsBeforeSpeak false rest
  end.

(** The request the host received last. *)
Fixpoint lastRequest (log : list HostRequest) : option HostRequest :=
  match log with
  | [] => None
  | [r] => Some r
  | _ :: rest => lastRequest rest
  end.

(** A request that starts or restarts the speech. *)
Definition startsSpeech (r : option HostRequest) : bool :=
  match r with
  | Some (Speak _ _ _ _) => true
  | Some Resume => true
  | _ => false
  end.

Definition isPauseRequest (r : option HostRequest) : bool :=
  match r with
  | Some Pause => true
  | _ => false
  end.

(** Whether a log ends with a [Cancel]; [afterCancel] answers for the empty
    log. *)
Fixpoint endsWithCancel (afterCancel : bool) (log : list HostRequest) : bool :=
  match log with
  | [] => afterCancel
  | Cancel :: rest => endsWithCancel true rest
  | _ :: rest => endsWithCancel false rest
  end.

(** What one block adds to the narration text. *)
Definition blockLines (block : Types.Block) : string :=
  appendBlock "" block.

(** The states reached from a mount by any run of operations. *)
Definition after (ops : list Op) (sec : Types.BookSection) (synth : bool)
  : State :=
  run ops (mount sec synth).

End HostLog.

(* ------------------------------------------------------------------ *)
(** ** Properties *)
(* ------------------------------------------------------------------ *)

Import JS Types.

(** *** The built-ins on small inputs *)

Example parseInt10_digits : parseInt10 "2" = Num 2.
Proof. reflexivity. Qed.

Example parseInt10_prefix : parseInt10 " 42px" = Num 42.
Proof. reflexivity. Qed.

Example parseInt10_negative : parseInt10 "-3" = Num (-3).
Proof. reflexivity. Qed.

Example parseInt10_no_digit : parseInt10 "px" = NaN /\ parseInt10 "" = NaN.
Proof. split; reflexivity. Qed.

Example findIndex_first_hit :
  findIndex (String.eqb "b") ["a"; "b"; "c"; "b"] = 1%Z
  /\ findIndex (String.eqb "z") ["a"; "b"] = (-1)%Z.
Proof. split; reflexivity. Qed.

Example at_index_outside :
  at_index ["a"; "b"] (-1) = None /\ at_index ["a"; "b"] 2 = None
  /\ at_index ["a"; "b"] 1 = Some "b".
Proof. repeat split; reflexivity. Qed.

(** *** Strings and arrays *)

Lemma string_app_assoc (a b c : string) : (a ++ b) ++ c = a ++ (b ++ c).
Proof.
  induction a as [|ch a IH]; simpl; [reflexivity|].
  now rewrite IH.
Qed.

Lemma string_app_empty_r (a : string) : a ++ "" = a.
Proof.
  induction a as [|ch a IH]; simpl; [reflexivity|].
  now rewrite IH.
Qed.

Lemma string_app_nonempty_r (a b : string) : b <> "" -> a ++ b <> "".
Proof.
  intros Hb. destruct a; simpl; [assumption|discriminate].
Qed.

Lemma includes_true_iff (l : list string) (x : string) :
  includes l x = true <-> In x l.
Proof.
  induction l as [|y l IH]; simpl.
  - split; [discriminate|contradiction].
  - destruct (String.eqb_spec y x) as [->|Hne].
    + split; auto.
    + rewrite IH. split; [auto|]. intros [H|H]; [contradiction|exact H].
Qed.

Lemma includes_false_iff (l : list string) (x : string) :
  includes l x = false <-> ~ In x l.
Proof.
  rewrite <- includes_true_iff. destruct (includes l x); split; intros H;
    try reflexivity; try discriminate; try (intros H'; discriminate).
  exfalso. apply H. reflexivity.
Qed.

Lemma includes_app (l1 l2 : list string) (x : string) :
  includes (l1 ++ l2)%list x = includes l1 x || includes l2 x.
Proof.
  induction l1 as [|y l1 IH]; simpl; [reflexivity|].
  destruct (String.eqb y x); [reflexivity|exact IH].
Qed.

Lemma filter_other_id (l : list string) (x : string) :
  includes l x = false ->
  filter (fun id => negb (String.eqb id x)) l = l.
Proof.
  induction l as [|y l IH]; simpl; [reflexivity|].
  destruct (String.eqb y x); simpl; [discriminate|].
  intros H. now rewrite IH.
Qed.

Lemma includes_filter_other (l : list string) (x : string) :
  includes (filter (fun id => negb (String.eqb id x)) l) x = false.
Proof.
  induction l as [|y l IH]; simpl; [reflexivity|].
  destruct (String.eqb y x) eqn:E; simpl; [exact IH|].
  now rewrite E.
Qed.

Lemma filter_app_last (l : list string) (x : string) :
  filter (fun id => negb (String.eqb id x)) (l ++ [x])%list =
  filter (fun id => negb (String.eqb id x)) l.
Proof.
  rewrite filter_app. simpl. rewrite String.eqb_refl. simpl.
  apply app_nil_r.
Qed.

(** *** Bookmarks *)

(** C1, as stated, fails: toggling twice an identifier that is bookmarked
    moves it to the end of the bookmark list. *)
Lemma toggleBookmark_twice_reorders :
  App.toggleBookmark "a" (App.toggleBookmark "a" ["a"; "b"]) = ["b"; "a"]
  /\ App.toggleBookmark "a" (App.toggleBookmark "a" ["a"; "b"]) <> ["a"; "b"].
Proof.
  split; [reflexivity|]. vm_compute. discriminate.
Qed.

(** C1, amended: toggling twice an identifier that is not bookmarked gives
    the bookmark list back, contents and order; toggling twice an identifier
    that is bookmarked gives the list without any occurrence of it, in the
    same order, followed by the identifier. *)
Theorem toggleBookmark_twice (sectionId : string) (prev : list string) :
  App.toggleBookmark sectionId (App.toggleBookmark sectionId prev) =
  if includes prev sectionId
  then (filter (fun id => negb (String.eqb id sectionId)) prev ++ [sectionId])%list
  else prev.
Proof.
  unfold App.toggleBookmark at 2.
  destruct (includes prev sectionId) eqn:E.
  - unfold App.toggleBookmark.
    now rewrite includes_filter_other.
  - unfold App.toggleBookmark.
    rewrite includes_app, E. simpl. rewrite String.eqb_refl.
    rewrite filter_app_last. now apply filter_other_id.
Qed.

(** With no identifier bookmarked twice, the double toggle keeps the contents
    of the list: it is a permutation of the original. *)
Lemma toggleBookmark_twice_Permutation (sectionId : string)
    (prev : list string) :
  NoDup prev ->
  Permutation (App.toggleBookmark sectionId (App.toggleBookmark sectionId prev))
              prev.
Proof.
  intros Hnd.
  assert (Htwice :
    App.toggleBookmark sectionId (App.toggleBookmark sectionId prev) =
    if includes prev sectionId
    then (filter (fun id => negb (String.eqb id sectionId)) prev
            ++ [sectionId])%list
    else prev).
  { unfold App.toggleBookmark at 2.
    destruct (includes prev sectionId) eqn:E; unfold App.toggleBookmark.
    - now rewrite includes_filter_other.
    - rewrite includes_app, E. simpl. rewrite String.eqb_refl.
      rewrite filter_app_last. now apply filter_other_id. }
  rewrite Htwice. clear Htwice.
  destruct (includes prev sectionId) eqn:E; [|apply Permutation_refl].
  apply includes_true_iff in E.
  induction prev as [|y l IH]; [contradiction|].
  inversion Hnd as [|? ? Hy Hl]; subst.
  simpl. destruct (String.eqb_spec y sectionId) as [->|Hne]; simpl.
  - rewrite filter_other_id by (now apply includes_false_iff).
    apply Permutation_sym, Permutation_cons_append.
  - destruct E as [E|E]; [contradiction|].
    apply perm_skip. now apply IH.
Qed.

(** A toggle never bookmarks an identifier twice. *)
Lemma toggleBookmark_NoDup (sectionId : string) (prev : list string) :
  NoDup prev -> NoDup (App.toggleBookmark sectionId prev).
Proof.
  intros Hnd. unfold App.toggleBookmark.
  destruct (includes prev sectionId) eqn:E.
  - now apply NoDup_filter.
  - apply includes_false_iff in E.
    apply NoDup_app; [assumption|repeat constructor; intros []|].
    intros a Ha [<-|[]]. contradiction.
Qed.

(** *** Narration text *)

Lemma fold_appendItem (items : list string) (text : string) :
  fold_left Reader.appendItem items text =
  text ++ String.concat "" (map (fun item => item ++ ". " ++ LF) items).
Proof.
  revert text. induction items as [|item items IH]; intros text; simpl.
  - now rewrite string_app_empty_r.
  - rewrite IH. unfold Reader.appendItem. rewrite string_app_assoc.
    f_equal. destruct items as [|item' items]; simpl.
    + now rewrite string_app_empty_r.
    + reflexivity.
Qed.

Lemma fold_appendBlock_app (pre post : list Block) (text : string) :
  fold_left Reader.appendBlock (pre ++ post)%list text =
  fold_left Reader.appendBlock post (fold_left Reader.appendBlock pre text).
Proof. apply fold_left_app. Qed.

(** Every step of the loop only appends to the text. *)
Lemma appendBlock_extends (block : Block) (text : string) :
  exists tail, Reader.appendBlock text block = text ++ tail.
Proof.
  destruct block; simpl; eauto.
  - rewrite fold_appendItem. eauto.
  - exists "". now rewrite string_app_empty_r.
Qed.

Lemma fold_appendBlock_extends (blocks : list Block) (text : string) :
  exists tail, fold_left Reader.appendBlock blocks text = text ++ tail.
Proof.
  revert text. induction blocks as [|b blocks IH]; intros text; simpl.
  - exists "". now rewrite string_app_empty_r.
  - destruct (appendBlock_extends b text) as [t1 ->].
    destruct (IH (text ++ t1)) as [t2 ->].
    exists (t1 ++ t2). apply string_app_assoc.
Qed.

(** The narration text starts with the title line, so it is never empty and
    the guard [if (!text) return] of [handlePlay] never fires. *)
Lemma extractText_nonempty (sec : BookSection) :
  String.eqb (Reader.extractText sec) "" = false.
Proof.
  apply String.eqb_neq. unfold Reader.extractText.
  destruct (fold_appendBlock_extends (content sec)
              (title sec ++ ". " ++ LF ++ LF)) as [tail ->].
  rewrite string_app_assoc. apply string_app_nonempty_r.
  simpl. discriminate.
Qed.

(** C2: the narration text leaves footnote blocks out and gives every list
    item a line of its own; for the title "T" and the blocks "Intro.", the
    list of "a" and "b" and the footnote "skip me" it is exactly
    "T. \n\nIntro. \na. \nb. \n". *)
Theorem extractText_footnotes_and_lists :
  Reader.extractText
    (mkSection "s" "T"
       [Plain "Intro."; ListBlock ["a"; "b"]; Footnote "skip me"])
  = "T. " ++ LF ++ LF ++ "Intro. " ++ LF ++ "a. " ++ LF ++ "b. " ++ LF
  /\ (forall i t pre post note,
        Reader.extractText (mkSection i t (pre ++ Footnote note :: post)) =
        Reader.extractText (mkSection i t (pre ++ post)))
  /\ (forall text items,
        Reader.appendBlock text (ListBlock items) =
        text ++ String.concat "" (map (fun item => item ++ ". " ++ LF) items)).
Proof.
  split; [reflexivity|]. split.
  - intros i t pre post note. unfold Reader.extractText. simpl.
    now rewrite !fold_appendBlock_app.
  - intros text items. apply fold_appendItem.
Qed.

Lemma appendBlock_blockLines (text : string) (block : Block) :
  Reader.appendBlock text block = text ++ HostLog.blockLines block.
Proof.
  unfold HostLog.blockLines. destruct block; simpl; try reflexivity.
  - rewrite (fold_appendItem items text), (fold_appendItem items "").
    reflexivity.
  - now rewrite string_app_empty_r.
Qed.

Lemma fold_appendBlock_blockLines (blocks : list Block) (text : string) :
  fold_left Reader.appendBlock blocks text =
  text ++ fold_right String.append "" (map HostLog.blockLines blocks).
Proof.
  revert text. induction blocks as [|b blocks IH]; intros text; simpl.
  - now rewrite string_app_empty_r.
  - rewrite IH, appendBlock_blockLines. apply string_app_assoc.
Qed.

(** C10: the narration text of a section holds, at the place of each quote
    block, the text of the quote followed by a period and a line break, and
    nothing of the source of the quote, which only the rendered view
    shows: the text is the text of the blocks before the quote, then the
    quote line, then the lines of the blocks after it, whatever the
    source. *)
Theorem extractText_quote_without_source :
  (forall text quoted source,
     Reader.appendBlock text (Quote quoted source) =
     text ++ quoted ++ ". " ++ LF)
  /\ (forall i t pre post quoted source source',
        Reader.extractText
          (mkSection i t (pre ++ Quote quoted source :: post)) =
        Reader.extractText
          (mkSection i t (pre ++ Quote quoted source' :: post)))
  /\ (forall quoted c source,
        Reader.renderBlock (Quote quoted (Some (String c source))) =
        Reader.RFigure quoted (Some (String c source)))
  /\ (forall i t pre post quoted source,
        Reader.extractText
          (mkSection i t (pre ++ Quote quoted source :: post)) =
        Reader.extractText (mkSection i t pre)
          ++ (quoted ++ ". " ++ LF)
          ++ fold_right String.append "" (map HostLog.blockLines post))
  /\ Reader.extractText
       (mkSection "s" "T"
          [Plain "Intro."; Quote "Seek knowledge" (Some "A saying");
           Plain "End."])
     = "T. " ++ LF ++ LF ++ "Intro. " ++ LF ++ "Seek knowledge. " ++ LF
         ++ "End. " ++ LF.
Proof.
  split; [reflexivity|]. split; [|split; [|split]].
  - intros i t pre post quoted source source'. unfold Reader.extractText.
    simpl. now rewrite !fold_appendBlock_app.
  - reflexivity.
  - intros i t pre post quoted source. unfold Reader.extractText.
    cbn [content title]. rewrite fold_appendBlock_app.
    cbn [fold_left Reader.appendBlock].
    rewrite (fold_appendBlock_blockLines post).
    now rewrite string_app_assoc.
  - reflexivity.
Qed.

(** *** Font size *)

Lemma increaseFont_in_range (level : jsnum) :
  App.levelInRange level -> App.levelInRange (App.increaseFont level).
Proof.
  destruct level as [|z]; simpl; [contradiction|]. lia.
Qed.

Lemma decreaseFont_in_range (level : jsnum) :
  App.levelInRange level -> App.levelInRange (App.decreaseFont level).
Proof.
  destruct level as [|z]; simpl; [contradiction|]. lia.
Qed.

(** C8: with the five configured sizes, a level within [0, 4] stays within
    [0, 4] under every sequence of presses on the two font buttons. *)
Theorem fontSizeIndex_stays_in_range (ops : list App.FontOp) (level : jsnum) :
  App.levelInRange level -> App.levelInRange (App.fontRun ops level).
Proof.
  revert level. unfold App.fontRun.
  induction ops as [|op ops IH]; intros level Hl; simpl; [exact Hl|].
  apply IH. destruct op; simpl.
  - now apply increaseFont_in_range.
  - now apply decreaseFont_in_range.
Qed.

Lemma fontSizeIndex_stays_in_range_witness :
  App.levelInRange (App.initFontSizeIndex App.Missing)
  /\ App.levelInRange
       (App.fontRun [App.Increase; App.Increase; App.Increase; App.Decrease]
                    (App.initFontSizeIndex App.Missing)).
Proof.
  split.
  - simpl. lia.
  - apply (fontSizeIndex_stays_in_range
             [App.Increase; App.Increase; App.Increase; App.Decrease]
             (App.initFontSizeIndex App.Missing)).
    simpl. lia.
Defined.

(** The two ends are fixed points: the buttons are bounded, they do not
    wrap around. *)
Lemma fontSizeIndex_saturates :
  App.increaseFont (Num 4) = Num 4 /\ App.decreaseFont (Num 0) = Num 0.
Proof. split; reflexivity. Qed.

(** *** Settings at start-up *)

(** The defaults that the initialisers do reach: an absent value or a failed
    read gives level 2, the light theme and no bookmark; any stored theme
    other than the string true gives the light theme; a stored bookmark
    string that [JSON.parse] rejects gives no bookmark. *)
Lemma settings_defaults (JSON_parse : string -> option App.JSValue) :
  App.initFontSizeIndex App.Missing = Num 2
  /\ App.initFontSizeIndex App.Throws = Num 2
  /\ App.initDarkMode App.Missing = false
  /\ App.initDarkMode App.Throws = false
  /\ (forall saved, saved <> "true" -> App.initDarkMode (App.Stored saved) = false)
  /\ App.initBookmarks JSON_parse App.Missing = App.JArray []
  /\ App.initBookmarks JSON_parse App.Throws = App.JArray []
  /\ (forall saved, JSON_parse saved = None ->
        App.initBookmarks JSON_parse (App.Stored saved) = App.JArray []).
Proof.
  repeat split; try reflexivity.
  - intros saved H. simpl. now apply String.eqb_neq.
  - intros saved H. simpl. rewrite H. now destruct (String.eqb saved "").
Qed.

(** C5 fails on the font size: a stored value that is not a number, here
    the string abc, is read as NaN and not as the default level 2, although
    the initialiser wraps the read in a [try] whose [catch] returns 2. *)
Theorem initFontSizeIndex_unparsable :
  App.initFontSizeIndex (App.Stored "abc") = NaN
  /\ App.initFontSizeIndex (App.Stored "abc") <> Num 2
  /\ App.initFontSizeIndex (App.Stored "") = NaN
  /\ forall ops, App.fontRun ops (App.initFontSizeIndex (App.Stored "abc")) = NaN.
Proof.
  repeat split; try reflexivity; try (vm_compute; discriminate).
  intros ops. change (App.initFontSizeIndex (App.Stored "abc")) with NaN.
  induction ops as [|op ops IH]; [reflexivity|].
  destruct op; exact IH.
Qed.

(** *** Navigation *)

Section Navigation.

Variable bookData : list BookChapter.

Local Abbreviation all := (App.allSections bookData).

Lemma findIndex_from_miss {A : Type} (p : A -> bool) (l : list A) (k : Z) :
  (forall a, In a l -> p a = false) -> findIndex_from p l k = (-1)%Z.
Proof.
  revert k. induction l as [|a l IH]; intros k H; simpl; [reflexivity|].
  rewrite (H a) by (now left). apply IH. intros b Hb. apply H. now right.
Qed.

Lemma findIndex_from_hit (l : list BookSection) (i : nat) (x : BookSection)
    (k : Z) :
  NoDup (map id l) -> nth_error l i = Some x ->
  findIndex_from (App.hasId (id x)) l k = (k + Z.of_nat i)%Z.
Proof.
  revert i k. induction l as [|a l IH]; intros i k Hnd Hi.
  - destruct i; discriminate.
  - simpl in Hnd. inversion Hnd as [|? ? Ha Hl]; subst.
    destruct i as [|i]; simpl in *.
    + injection Hi as ->. unfold App.hasId at 1. rewrite String.eqb_refl. lia.
    + assert (Hne : App.hasId (id x) a = false).
      { apply String.eqb_neq. intros E. apply Ha. rewrite E.
        apply in_map. eapply nth_error_In; eauto. }
      rewrite Hne, (IH i (k + 1)%Z Hl Hi). lia.
Qed.

Lemma findIndex_hit (l : list BookSection) (i : nat) (x : BookSection) :
  NoDup (map id l) -> nth_error l i = Some x ->
  findIndex (App.hasId (id x)) l = Z.of_nat i.
Proof.
  intros Hnd Hi. unfold findIndex.
  now rewrite (findIndex_from_hit l i x 0 Hnd Hi).
Qed.

Lemma at_index_of_nat {A : Type} (l : list A) (i : nat) :
  at_index l (Z.of_nat i) = nth_error l i.
Proof.
  unfold at_index. destruct (Z.ltb_spec (Z.of_nat i) 0); [lia|].
  now rewrite Nat2Z.id.
Qed.

(** Reading a button off the record that [prevNext] has been shown to
    return. *)
Ltac read_link :=
  cbv beta iota delta [App.predecessor App.successor
                       App.prevSection App.nextSection].

Lemma isTOC_section (x : BookSection) :
  ~ In "TOC" (map id all) -> In x all -> App.isTOC (id x) = false.
Proof.
  intros Htoc Hx. apply String.eqb_neq. intros E. apply Htoc.
  rewrite <- E. now apply in_map.
Qed.

(** Where the two buttons lead from a section of a book whose identifiers
    are pairwise distinct and differ from the TOC sentinel. *)
Lemma prevNext_at (i : nat) (x : BookSection) :
  NoDup (map id all) -> ~ In "TOC" (map id all) ->
  nth_error all i = Some x ->
  App.prevNext bookData (id x) =
  Normal {| App.prevSection :=
              if (Z.of_nat i >? 0)%Z
              then option_map App.LinkSection (at_index all (Z.of_nat i - 1))
              else Some App.tocLink;
            App.nextSection :=
              if (Z.of_nat i <? Z.of_nat (List.length all) - 1)%Z
              then option_map App.LinkSection (at_index all (Z.of_nat i + 1))
              else None |}.
Proof.
  intros Hnd Htoc Hi. unfold App.prevNext.
  rewrite (isTOC_section x Htoc (nth_error_In _ _ Hi)).
  now rewrite (findIndex_hit all i x Hnd Hi).
Qed.

(** The last section has no successor and the first one leads back to the
    table of contents. *)
Lemma prevNext_boundaries (x : BookSection) :
  NoDup (map id all) -> ~ In "TOC" (map id all) ->
  (nth_error all 0 = Some x ->
   App.predecessor bookData (id x) = Some App.tocLink)
  /\ (nth_error all (List.length all - 1) = Some x ->
      App.successor bookData (id x) = None).
Proof.
  intros Hnd Htoc. split; intros Hi.
  - unfold App.predecessor. now rewrite (prevNext_at 0 x Hnd Htoc Hi).
  - unfold App.successor. rewrite (prevNext_at _ x Hnd Htoc Hi). read_link.
    destruct (Z.ltb_spec (Z.of_nat (List.length all - 1))
                (Z.of_nat (List.length all) - 1)); [lia|reflexivity].
Qed.

(** C7: in a book whose section identifiers are pairwise distinct and differ
    from the TOC sentinel, a section that is neither the first nor the last
    of the flattened order has a successor, and the predecessor of that
    successor is the section itself. *)
Theorem predecessor_of_successor (i : nat) (x : BookSection) :
  NoDup (map id (App.allSections bookData)) ->
  ~ In "TOC" (map id (App.allSections bookData)) ->
  nth_error (App.allSections bookData) i = Some x ->
  (0 < i)%nat ->
  (i < List.length (App.allSections bookData) - 1)%nat ->
  exists next,
    App.successor bookData (id x) = Some next
    /\ App.predecessor bookData (App.navId next) = Some (App.LinkSection x)
    /\ option_map App.navId (App.predecessor bookData (App.navId next))
       = Some (id x).
Proof.
  intros Hnd Htoc Hi Hfirst Hlast.
  destruct (nth_error all (S i)) as [y|] eqn:Hy.
  2:{ apply nth_error_None in Hy. lia. }
  exists (App.LinkSection y).
  assert (Hprev : App.predecessor bookData (id y) = Some (App.LinkSection x)).
  { unfold App.predecessor. rewrite (prevNext_at (S i) y Hnd Htoc Hy).
    read_link.
    destruct (Z.gtb_spec (Z.of_nat (S i)) 0); [|lia].
    replace (Z.of_nat (S i) - 1)%Z with (Z.of_nat i) by lia.
    now rewrite at_index_of_nat, Hi. }
  split; [|split].
  - unfold App.successor. rewrite (prevNext_at i x Hnd Htoc Hi). read_link.
    destruct (Z.ltb_spec (Z.of_nat i) (Z.of_nat (List.length all) - 1));
      [|lia].
    replace (Z.of_nat i + 1)%Z with (Z.of_nat (S i)) by lia.
    now rewrite at_index_of_nat, Hy.
  - exact Hprev.
  - cbn [App.navId]. now rewrite Hprev.
Qed.

(** Without the first-section hypothesis the round trip still holds. *)
Lemma predecessor_of_successor_from_first (x y : BookSection) :
  NoDup (map id all) -> ~ In "TOC" (map id all) ->
  nth_error all 0 = Some x -> nth_error all 1 = Some y ->
  App.successor bookData (id x) = Some (App.LinkSection y)
  /\ App.predecessor bookData (id y) = Some (App.LinkSection x).
Proof.
  intros Hnd Htoc Hx Hy. split.
  - unfold App.successor. rewrite (prevNext_at 0 x Hnd Htoc Hx). read_link.
    assert (Hlen : (1 < List.length all)%nat).
    { apply nth_error_Some. now rewrite Hy. }
    destruct (Z.ltb_spec (Z.of_nat 0) (Z.of_nat (List.length all) - 1));
      [|lia].
    change (Z.of_nat 0 + 1)%Z with (Z.of_nat 1).
    now rewrite at_index_of_nat, Hy.
  - unfold App.predecessor. rewrite (prevNext_at 1 y Hnd Htoc Hy). read_link.
    destruct (Z.gtb_spec (Z.of_nat 1) 0); [|lia].
    change (Z.of_nat 1 - 1)%Z with (Z.of_nat 0).
    now rewrite at_index_of_nat, Hx.
Qed.

(** A requested identifier that no section carries: the chapter search
    finds nothing. *)
Lemma searchChapters_miss (chapters : list BookChapter) (x : string) :
  ~ In x (map id (App.allSections chapters)) ->
  App.searchChapters chapters x = None.
Proof.
  induction chapters as [|c chapters IH]; intros Hx; simpl; [reflexivity|].
  unfold App.allSections in Hx. simpl in Hx. rewrite map_app in Hx.
  unfold findIndex. rewrite findIndex_from_miss.
  - simpl. apply IH. intros H. apply Hx, in_or_app. now right.
  - intros s Hs. apply String.eqb_neq. intros E. apply Hx, in_or_app.
    left. rewrite <- E. now apply in_map.
Qed.

(** On such an identifier the reader shows the first section of the first
    chapter at index 0 and the previous button leads to the table of
    contents, but the next button leads to the first section of the
    flattened order, which is the section on display. *)
Lemma lookup_miss (x : string) (firstChapter : BookChapter)
    (rest : list BookChapter) :
  bookData = firstChapter :: rest ->
  x <> "TOC" -> ~ In x (map id all) ->
  App.activeChapterInfo bookData x =
    Normal (Some {| App.info_title := chapter_title firstChapter;
                    App.info_index := 0;
                    App.info_total := List.length (sections firstChapter);
                    App.info_section := nth_error (sections firstChapter) 0 |})
  /\ App.predecessor bookData x = Some App.tocLink
  /\ App.successor bookData x =
     match all with
     | first :: _ => Some (App.LinkSection first)
     | [] => None
     end.
Proof.
  intros Hdata Htoc Hx.
  assert (Hmiss : findIndex (App.hasId x) all = (-1)%Z).
  { apply findIndex_from_miss. intros s Hs. apply String.eqb_neq.
    intros E. apply Hx. rewrite <- E. now apply in_map. }
  assert (HisTOC : App.isTOC x = false) by (now apply String.eqb_neq).
  split; [|split].
  - unfold App.activeChapterInfo. rewrite HisTOC.
    rewrite (searchChapters_miss bookData x Hx). now rewrite Hdata.
  - unfold App.predecessor, App.prevNext. rewrite HisTOC.
    now rewrite Hmiss.
  - unfold App.successor, App.prevNext. rewrite HisTOC.
    rewrite Hmiss. simpl. destruct all as [|first l]; [reflexivity|].
    destruct (Z.ltb_spec (-1) (Z.of_nat (List.length (first :: l)) - 1));
      [reflexivity|]. simpl List.length in *. lia.
Qed.

End Navigation.

Lemma sample_ids_distinct : NoDup (map id (App.allSections Sample.book)).
Proof.
  repeat constructor; simpl; intuition discriminate.
Defined.

Lemma sample_ids_not_TOC : ~ In "TOC" (map id (App.allSections Sample.book)).
Proof.
  simpl. intuition discriminate.
Defined.

Lemma predecessor_of_successor_witness :
  exists next,
    App.successor Sample.book (id Sample.intro2) = Some next
    /\ App.predecessor Sample.book (App.navId next)
       = Some (App.LinkSection Sample.intro2)
    /\ option_map App.navId (App.predecessor Sample.book (App.navId next))
       = Some (id Sample.intro2).
Proof.
  apply (predecessor_of_successor Sample.book 1 Sample.intro2).
  - exact sample_ids_distinct.
  - exact sample_ids_not_TOC.
  - reflexivity.
  - simpl. lia.
  - simpl. lia.
Defined.

(** C4 holds for the active section, its index and the previous button, and
    fails for the next button: on an identifier that no section carries,
    here the one the application starts on, the reader shows the first
    section, and the next button leads to that same first section, not to
    the second one, which is where it leads once the first section has been
    requested by its own identifier. *)
Theorem lookup_miss_successor_is_first :
  App.activeChapterInfo Sample.bookWithoutIntro App.initialSectionId =
    Normal (Some {| App.info_title := "Before the text";
                    App.info_index := 0;
                    App.info_total := 2;
                    App.info_section := Some Sample.foreword1 |})
  /\ App.predecessor Sample.bookWithoutIntro App.initialSectionId
     = Some App.tocLink
  /\ App.successor Sample.bookWithoutIntro App.initialSectionId
     = Some (App.LinkSection Sample.foreword1)
  /\ App.successor Sample.bookWithoutIntro App.initialSectionId
     <> Some (App.LinkSection Sample.foreword2)
  /\ App.successor Sample.bookWithoutIntro (id Sample.foreword1)
     = Some (App.LinkSection Sample.foreword2).
Proof.
  repeat split; try reflexivity.
  vm_compute. discriminate.
Qed.

(** *** The narration controller *)

Lemma reachable_run (ops : list Reader.Op) (s : Reader.State) :
  Reader.reachable s -> Reader.reachable (Reader.run ops s).
Proof.
  revert s. unfold Reader.run.
  induction ops as [|op ops IH]; intros s Hs; simpl; [exact Hs|].
  apply IH. now constructor.
Qed.

Lemma playback_Idle_iff (s : Reader.State) :
  Reader.playback s = Reader.Idle <->
  Reader.isPlaying s = false /\ Reader.isPaused s = false.
Proof.
  unfold Reader.playback.
  destruct (Reader.isPlaying s), (Reader.isPaused s); split;
    intros H; try discriminate; auto; destruct H; discriminate.
Qed.

(** A reader that has just been mounted is idle, at progress 0, with the
    player panel hidden. *)
Lemma mount_is_idle (sec : BookSection) (synth : bool) :
  Reader.playback (Reader.mount sec synth) = Reader.Idle
  /\ Reader.progress (Reader.mount sec synth) = 0
  /\ Reader.showPlayer (Reader.mount sec synth) = false.
Proof. repeat split; reflexivity. Qed.

(** What [handleStop] leaves behind, whatever the state it is called in. *)
Lemma handleStop_resets (s : Reader.State) :
  Reader.playback (Reader.handleStop s) = Reader.Idle
  /\ Reader.progress (Reader.handleStop s) = 0
  /\ Reader.utteranceRef (Reader.handleStop s) = None
  /\ Reader.showPlayer (Reader.handleStop s) = Reader.showPlayer s
  /\ Reader.section (Reader.handleStop s) = Reader.section s
  /\ Reader.host (Reader.handleStop s) =
     (Reader.host s ++ if Reader.synthRef s then [Reader.Cancel] else [])%list.
Proof.
  unfold Reader.handleStop.
  destruct (Reader.synthRef s); simpl; repeat split; try reflexivity.
  now rewrite app_nil_r.
Qed.

(** Stopping an idle reader with progress 0 changes neither. *)
Lemma handleStop_idle (s : Reader.State) :
  Reader.playback s = Reader.Idle -> Reader.progress s = 0 ->
  Reader.playback (Reader.handleStop s) = Reader.Idle
  /\ Reader.progress (Reader.handleStop s) = 0.
Proof.
  intros _ _. destruct (handleStop_resets s) as (H1 & H2 & _). now split.
Qed.

Lemma percentage_nonneg (charIndex : N) (len : nat) :
  0 <= inject_Z (Z.of_N charIndex) / inject_Z (Z.of_nat len) * 100.
Proof.
  apply Qmult_le_0_compat; [|discriminate].
  apply Qmult_le_0_compat.
  - change 0 with (inject_Z 0). rewrite <- Zle_Qle. lia.
  - apply Qinv_le_0_compat. change 0 with (inject_Z 0).
    rewrite <- Zle_Qle. lia.
Qed.

(** The progress shown is a percentage in every state of the reader. *)
Lemma progress_in_range (s : Reader.State) :
  Reader.reachable s -> 0 <= Reader.progress s <= 100.
Proof.
  induction 1 as [sec synth|s op Hs IH].
  - simpl. split; discriminate.
  - destruct op; simpl.
    + unfold Reader.handlePlay.
      destruct (Reader.synthRef s); simpl; [|exact IH].
      destruct (Reader.isPaused s); simpl; [exact IH|].
      destruct (Reader.isPlaying s); simpl; [exact IH|].
      destruct (String.eqb _ _); simpl; exact IH.
    + split; discriminate.
    + unfold Reader.changeSection, Reader.sectionEffect.
      destruct (String.eqb _ _); simpl; [exact IH|]. split; discriminate.
    + unfold Reader.onboundary.
      destruct (String.eqb name "word" || String.eqb name "sentence");
        [|exact IH].
      simpl. split.
      * apply Q.min_glb; [apply percentage_nonneg|discriminate].
      * apply Q.le_min_r.
    + split; discriminate.
    + unfold Reader.onerror.
      destruct (String.eqb error "canceled" || String.eqb error "interrupted");
        simpl; exact IH.
    + exact IH.
    + split; discriminate.
Qed.

Lemma sinceReset_reachable (s : Reader.State) :
  Reader.sinceReset s -> Reader.reachable s.
Proof.
  induction 1 as [sec synth|s Hs|s Hs|s sec Hs _|s op _ IH _].
  - constructor.
  - apply (Reader.reach_step s Reader.OpStop Hs).
  - apply (Reader.reach_step s Reader.OpClosePlayer Hs).
  - apply (Reader.reach_step s (Reader.OpSectionChange sec) Hs).
  - now constructor.
Qed.





(** The other ways into the idle state keep or set another progress: the
    completion callback sets 100 and an error of the host keeps the last
    progress reported. *)
Lemma idle_by_callback (s : Reader.State) (error : string) :
  (Reader.playback (Reader.onend s) = Reader.Idle
   /\ Reader.progress (Reader.onend s) = 100)
  /\ (String.eqb error "canceled" || String.eqb error "interrupted" = false ->
      Reader.playback (Reader.onerror error s) = Reader.Idle
      /\ Reader.progress (Reader.onerror error s) = Reader.progress s)
  /\ (String.eqb error "canceled" || String.eqb error "interrupted" = true ->
      Reader.onerror error s = s).
Proof.
  split; [split; reflexivity|]. unfold Reader.onerror.
  split; intros ->; [split|]; reflexivity.
Qed.

(** C6, as stated, fails: where the host has no speech facility
    ([synthRef.current] is empty) [play()] returns at once and the reader
    stays idle. *)
Lemma play_without_synth_stays_idle :
  let s := Reader.mount Sample.intro1 false in
  Reader.playback s = Reader.Idle
  /\ Reader.handlePlay s = s
  /\ Reader.playback (Reader.handlePlay s) <> Reader.Playing.
Proof.
  repeat split; try reflexivity. vm_compute. discriminate.
Qed.

(** The three branches of [handlePlay] where the host has a speech
    facility. *)
Lemma handlePlay_from_idle (s : Reader.State) :
  Reader.synthRef s = true ->
  Reader.isPaused s = false -> Reader.isPlaying s = false ->
  Reader.handlePlay s =
  Reader.setIsPaused false
    (Reader.setIsPlaying true
       (Reader.request
          (Reader.Speak (Reader.extractText (Reader.section s)) "ru-RU" 1 1)
          (Reader.setUtterance (Some (Reader.extractText (Reader.section s)))
             (Reader.request Reader.Cancel s)))).
Proof.
  intros Hsynth Hpaused Hplaying. unfold Reader.handlePlay.
  rewrite Hsynth, Hpaused, Hplaying. simpl.
  now rewrite extractText_nonempty.
Qed.

Lemma handlePlay_from_playing (s : Reader.State) :
  Reader.synthRef s = true ->
  Reader.isPaused s = false -> Reader.isPlaying s = true ->
  Reader.handlePlay s =
  Reader.setIsPlaying false
    (Reader.setIsPaused true (Reader.request Reader.Pause s)).
Proof.
  intros Hsynth Hpaused Hplaying. unfold Reader.handlePlay.
  now rewrite Hsynth, Hpaused, Hplaying.
Qed.

Lemma handlePlay_from_paused (s : Reader.State) :
  Reader.synthRef s = true -> Reader.isPaused s = true ->
  Reader.handlePlay s =
  Reader.setIsPlaying true
    (Reader.setIsPaused false (Reader.request Reader.Resume s)).
Proof.
  intros Hsynth Hpaused. unfold Reader.handlePlay.
  now rewrite Hsynth, Hpaused.
Qed.

(** C6, amended: where the host has a speech facility, three [play()] calls
    from the idle state lead to Playing, then Paused, then Playing again;
    the first call cancels what the host may still hold and speaks the
    narration text, the second pauses and the third resumes. *)
Theorem play_three_times (s : Reader.State) :
  Reader.synthRef s = true ->
  Reader.playback s = Reader.Idle ->
  let text := Reader.extractText (Reader.section s) in
  let s1 := Reader.handlePlay s in
  let s2 := Reader.handlePlay s1 in
  let s3 := Reader.handlePlay s2 in
  Reader.playback s1 = Reader.Playing
  /\ Reader.playback s2 = Reader.Paused
  /\ Reader.playback s3 = Reader.Playing
  /\ Reader.host s1 =
     (Reader.host s ++ [Reader.Cancel; Reader.Speak text "ru-RU" 1 1])%list
  /\ Reader.host s2 = (Reader.host s1 ++ [Reader.Pause])%list
  /\ Reader.host s3 = (Reader.host s2 ++ [Reader.Resume])%list
  /\ Reader.progress s3 = Reader.progress s.
Proof.
  intros Hsynth Hidle. apply playback_Idle_iff in Hidle.
  destruct Hidle as [Hplaying Hpaused]. intros text s1 s2 s3.
  pose proof (handlePlay_from_idle s Hsynth Hpaused Hplaying) as E1.
  fold text s1 in E1.
  assert (E2 : s2 =
               Reader.setIsPlaying false
                 (Reader.setIsPaused true (Reader.request Reader.Pause s1))).
  { apply (handlePlay_from_playing s1); rewrite E1; simpl; auto. }
  assert (E3 : s3 =
               Reader.setIsPlaying true
                 (Reader.setIsPaused false (Reader.request Reader.Resume s2))).
  { apply (handlePlay_from_paused s2); rewrite E2; simpl; auto.
    rewrite E1. exact Hsynth. }
  repeat split.
  - now rewrite E1.
  - now rewrite E2.
  - now rewrite E3.
  - rewrite E1. simpl. now rewrite <- app_assoc.
  - now rewrite E2.
  - now rewrite E3.
  - now rewrite E3, E2, E1.
Qed.

Lemma play_three_times_witness :
  let s := Reader.mount Sample.intro1 true in
  Reader.playback (Reader.handlePlay s) = Reader.Playing
  /\ Reader.playback (Reader.handlePlay (Reader.handlePlay s)) = Reader.Paused
  /\ Reader.playback
       (Reader.handlePlay (Reader.handlePlay (Reader.handlePlay s)))
     = Reader.Playing.
Proof.
  intros s.
  destruct (play_three_times s) as (H1 & H2 & H3 & _).
  - reflexivity.
  - reflexivity.
  - exact (conj H1 (conj H2 H3)).
Defined.

(** C9: a change to a section with another identifier runs the stop
    semantics whatever the state: the reader is idle, its progress is 0, the
    player panel is hidden, no utterance is held, and the host, where there
    is one, has been told to cancel. *)
Theorem changeSection_stops (s : Reader.State) (sec : BookSection) :
  String.eqb (id sec) (id (Reader.section s)) = false ->
  let s' := Reader.changeSection sec s in
  Reader.playback s' = Reader.Idle
  /\ Reader.progress s' = 0
  /\ Reader.showPlayer s' = false
  /\ Reader.utteranceRef s' = None
  /\ Reader.section s' = sec
  /\ Reader.host s' =
     (Reader.host s ++ if Reader.synthRef s then [Reader.Cancel] else [])%list.
Proof.
  intros Hid. unfold Reader.changeSection. rewrite Hid.
  unfold Reader.sectionEffect, Reader.handleStop.
  cbn [Reader.synthRef Reader.setSection].
  destruct (Reader.synthRef s); simpl; repeat split; try reflexivity.
  now rewrite app_nil_r.
Qed.

Lemma changeSection_stops_witness :
  let s := Reader.run [Reader.OpTogglePlayer; Reader.OpPlay;
                       Reader.OpBoundary "" "word" 7]
             (Reader.mount Sample.intro1 true) in
  Reader.playback s = Reader.Playing
  /\ Reader.showPlayer s = true
  /\ Reader.playback (Reader.changeSection Sample.intro2 s) = Reader.Idle
  /\ Reader.progress (Reader.changeSection Sample.intro2 s) = 0
  /\ Reader.showPlayer (Reader.changeSection Sample.intro2 s) = false.
Proof.
  intros s.
  destruct (changeSection_stops s Sample.intro2) as (H1 & H2 & H3 & _).
  - reflexivity.
  - split; [reflexivity|]. split; [reflexivity|].
    exact (conj H1 (conj H2 H3)).
Defined.

(** The same holds from the paused state, and a later completion callback
    of the cancelled utterance is the only thing that moves the progress of
    the new section. *)
Lemma changeSection_from_paused :
  let s := Reader.run [Reader.OpPlay; Reader.OpPlay]
             (Reader.mount Sample.intro1 true) in
  Reader.playback s = Reader.Paused
  /\ Reader.playback (Reader.changeSection Sample.intro2 s) = Reader.Idle
  /\ Reader.progress (Reader.changeSection Sample.intro2 s) = 0.
Proof. repeat split; reflexivity. Qed.

(* ------------------------------------------------------------------ *)
(** ** Further properties of the settings *)
(* ------------------------------------------------------------------ *)

Section DecimalRoundTrip.

Local Open Scope Z_scope.

(** Evaluates [digitValue] on the character at the head of the goal. *)
Ltac read_digit :=
  match goal with
  | |- context [digitValue ?c] =>
      let v := eval vm_compute in (digitValue c) in
      change (digitValue c) with v
  end.

Lemma readDigits_uint_acc (d : Decimal.uint) (acc : positive) :
  readDigits (NilEmpty.string_of_uint d) (Some (Z.pos acc)) =
  Some (Z.pos (Pos.of_uint_acc d acc)).
Proof.
  revert acc. induction d; intros acc; cbn [NilEmpty.string_of_uint];
    [reflexivity | ..];
    cbn [readDigits Pos.of_uint_acc];
    read_digit;
    cbv iota beta;
    match goal with
    | |- readDigits _ (Some ?v) = _ =>
        match goal with
        | |- _ = Some (Z.pos (Pos.of_uint_acc _ ?a)) =>
            replace v with (Z.pos a) by lia
        end
    end;
    apply IHd.
Qed.

Lemma readDigits_uint_zero (d : Decimal.uint) :
  readDigits (NilEmpty.string_of_uint d) (Some 0) =
  Some (Z.of_N (Pos.of_uint d)).
Proof.
  induction d; cbn [NilEmpty.string_of_uint]; [reflexivity | ..];
    cbn [readDigits Pos.of_uint];
    read_digit;
    cbv iota beta;
    [exact IHd | ..];
    cbn [Z.of_N];
    match goal with
    | |- readDigits _ (Some ?v) = Some (Z.pos (Pos.of_uint_acc _ ?a)) =>
        change v with (Z.pos a)
    end;
    apply readDigits_uint_acc.
Qed.

Lemma readDigits_uint (d : Decimal.uint) :
  d <> Decimal.Nil ->
  readDigits (NilEmpty.string_of_uint d) None =
  Some (Z.of_N (Pos.of_uint d)).
Proof.
  destruct d; intros Hd; [contradiction | ..];
    cbn [NilEmpty.string_of_uint readDigits Pos.of_uint];
    read_digit;
    cbv iota beta;
    [apply (readDigits_uint_zero d) | ..];
    cbn [Z.of_N];
    match goal with
    | |- readDigits _ (Some ?v) = Some (Z.pos (Pos.of_uint_acc _ ?a)) =>
        change v with (Z.pos a)
    end;
    apply readDigits_uint_acc.
Qed.

Lemma to_uint_not_Nil (p : positive) : Pos.to_uint p <> Decimal.Nil.
Proof.
  intros E. pose proof (DecimalPos.Unsigned.of_to p) as H.
  rewrite E in H. discriminate.
Qed.

(** The first character of a printed natural number is a digit: no white
    space to skip and no sign to read. *)
Lemma trimStart_uint (d : Decimal.uint) :
  trimStart (NilEmpty.string_of_uint d) = NilEmpty.string_of_uint d.
Proof. destruct d; reflexivity. Qed.

Lemma parseInt10_uint (d : Decimal.uint) :
  d <> Decimal.Nil ->
  parseInt10 (NilEmpty.string_of_uint d) = Num (Z.of_N (Pos.of_uint d)).
Proof.
  intros Hd. unfold parseInt10. rewrite trimStart_uint.
  assert (Hbody : (match NilEmpty.string_of_uint d with
                   | String "-" r => (-1, r)
                   | String "+" r => (1, r)
                   | _ => (1, NilEmpty.string_of_uint d)
                   end) = (1, NilEmpty.string_of_uint d)).
  { destruct d; reflexivity. }
  rewrite Hbody, (readDigits_uint d Hd). f_equal; lia.
Qed.

Lemma parseInt10_negative_uint (d : Decimal.uint) :
  d <> Decimal.Nil ->
  parseInt10 (String "-" (NilEmpty.string_of_uint d)) =
  Num (- Z.of_N (Pos.of_uint d)).
Proof.
  intros Hd. unfold parseInt10.
  change (trimStart (String "-" (NilEmpty.string_of_uint d)))
    with (String "-" (NilEmpty.string_of_uint d)).
  cbv iota beta. rewrite (readDigits_uint d Hd). f_equal; lia.
Qed.

End DecimalRoundTrip.

(** Printing NaN or a safe integer and parsing it back gives the number. *)
Lemma parseInt10_numberToString (n : jsnum) (printed : string) :
  Settings.numberToString n = Some printed -> parseInt10 printed = n.
Proof.
  unfold Settings.numberToString.
  destruct (Settings.isSafeOrNaN n); [|discriminate].
  intros H. injection H as <-.
  destruct n as [|z]; [reflexivity|].
  pose proof (DecimalZ.of_to z) as Hz.
  destruct z as [|p|p]; [reflexivity | |];
    cbn [Z.to_int NilEmpty.string_of_int Z.of_int] in *;
    unfold Z.of_uint in Hz.
  - rewrite parseInt10_uint by apply to_uint_not_Nil. now rewrite Hz.
  - rewrite parseInt10_negative_uint by apply to_uint_not_Nil. now rewrite Hz.
Qed.

(** X1: for NaN and for every safe integer, the font-size level written to
    the storage by the effect on [fontSizeIndex] is the level the
    initialiser reads at the next start, and what the initialiser of the
    theme reads is not changed by that write. *)
Theorem fontSizeIndex_survives_restart (st : Settings.Storage)
    (fontSizeIndex : jsnum) :
  Settings.isSafeOrNaN fontSizeIndex = true ->
  exists st',
    Settings.persistFontSizeIndex st fontSizeIndex = Some st'
    /\ Settings.loadFontSizeIndex st' = fontSizeIndex
    /\ Settings.loadDarkMode st' = Settings.loadDarkMode st.
Proof.
  intros Hsafe. unfold Settings.persistFontSizeIndex.
  destruct (Settings.numberToString fontSizeIndex) as [printed|] eqn:E.
  - exists (Settings.setItem st "fontSizeIndex" printed).
    split; [reflexivity|]. split; [|reflexivity].
    unfold Settings.loadFontSizeIndex, Settings.getItem, Settings.setItem.
    rewrite String.eqb_refl. now apply parseInt10_numberToString.
  - unfold Settings.numberToString in E. rewrite Hsafe in E. discriminate.
Qed.

Lemma fontSizeIndex_survives_restart_witness :
  exists st',
    Settings.persistFontSizeIndex Settings.emptyStorage (Num 4) = Some st'
    /\ Settings.loadFontSizeIndex st' = Num 4
    /\ Settings.loadDarkMode st' = Settings.loadDarkMode Settings.emptyStorage.
Proof.
  apply (fontSizeIndex_survives_restart Settings.emptyStorage (Num 4)).
  reflexivity.
Defined.

(** Every level within the configured sizes is a safe integer, and the
    level NaN that an unreadable stored value leaves is written as the
    string NaN and read back as NaN at every later start. *)
Lemma persisted_levels :
  (forall z, (0 <= z <= 4)%Z -> Settings.isSafeOrNaN (Num z) = true)
  /\ Settings.numberToString NaN = Some "NaN"
  /\ Settings.numberToString (Num (10 ^ 21)) = None.
Proof.
  split; [|split; reflexivity].
  intros z Hz. unfold Settings.isSafeOrNaN, Settings.MAX_SAFE_INTEGER.
  apply andb_true_intro. split; apply Z.leb_le; lia.
Qed.

(** X2: the theme written by the effect on [isDarkMode] is the theme read
    at the next start, a toggle followed by a restart gives the other theme,
    and the write leaves the stored font-size level as it reads. *)
Theorem darkMode_survives_restart (st : Settings.Storage) (isDarkMode : bool) :
  Settings.loadDarkMode (Settings.persistDarkMode st isDarkMode) = isDarkMode
  /\ Settings.loadDarkMode
       (Settings.persistDarkMode st (Settings.toggleDarkMode isDarkMode))
     = negb isDarkMode
  /\ Settings.loadFontSizeIndex (Settings.persistDarkMode st isDarkMode)
     = Settings.loadFontSizeIndex st.
Proof.
  repeat split; destruct isDarkMode; reflexivity.
Qed.

(** X3: a level within the configured sizes selects a size class, and one
    of the two font buttons is disabled exactly where a press on it would
    leave the level as it is. *)
Theorem font_buttons_disabled_iff_no_effect (level : jsnum) :
  App.levelInRange level ->
  (exists class, Settings.fontSizeClass level = Some class)
  /\ (Settings.increaseDisabled level = true <-> App.increaseFont level = level)
  /\ (Settings.decreaseDisabled level = true <-> App.decreaseFont level = level).
Proof.
  destruct level as [|z]; simpl; [contradiction|]. intros Hz.
  split; [|split].
  - unfold at_index. destruct (Z.ltb_spec z 0); [lia|].
    destruct (nth_error App.FONT_SIZES (Z.to_nat z)) as [c|] eqn:E; [eauto|].
    apply nth_error_None in E. simpl in E. lia.
  - rewrite Z.eqb_eq. split; intros H.
    + subst z. reflexivity.
    + injection H as H. lia.
  - rewrite Z.eqb_eq. split; intros H.
    + subst z. reflexivity.
    + injection H as H. lia.
Qed.

Lemma font_buttons_disabled_iff_no_effect_witness :
  (exists class, Settings.fontSizeClass (Num 4) = Some class)
  /\ (Settings.increaseDisabled (Num 4) = true <->
      App.increaseFont (Num 4) = Num 4)
  /\ (Settings.decreaseDisabled (Num 4) = true <->
      App.decreaseFont (Num 4) = Num 4).
Proof.
  apply (font_buttons_disabled_iff_no_effect (Num 4)). simpl. lia.
Defined.

(** X4: below the largest size an increase followed by a decrease gives the
    level back, and above the smallest size so does a decrease followed by
    an increase; at the two ends the pair moves the level by one. *)
Theorem font_steps_undo (z : Z) :
  (0 <= z <= 4)%Z ->
  App.decreaseFont (App.increaseFont (Num z)) =
    Num (if (z =? 4)%Z then 3 else z)
  /\ App.increaseFont (App.decreaseFont (Num z)) =
    Num (if (z =? 0)%Z then 1 else z).
Proof.
  intros Hz.
  assert (Hlen : (Z.of_nat (List.length App.FONT_SIZES) - 1 = 4)%Z)
    by reflexivity.
  unfold App.increaseFont, App.decreaseFont.
  cbn [add sub Math_min Math_max]. rewrite Hlen.
  split; f_equal.
  - destruct (Z.eqb_spec z 4); lia.
  - destruct (Z.eqb_spec z 0); lia.
Qed.

Lemma font_steps_undo_witness :
  App.decreaseFont (App.increaseFont (Num 2)) = Num 2
  /\ App.increaseFont (App.decreaseFont (Num 2)) = Num 2.
Proof.
  apply (font_steps_undo 2). lia.
Defined.

(** A stored level outside the configured sizes is not brought back by the
    initialiser, has no size class, and a decrease keeps it outside. *)
Lemma stored_level_out_of_range :
  Settings.loadFontSizeIndex
    (Settings.setItem Settings.emptyStorage "fontSizeIndex" "7") = Num 7
  /\ Settings.fontSizeClass (Num 7) = None
  /\ App.decreaseFont (Num 7) = Num 6
  /\ App.increaseFont (Num 7) = Num 4.
Proof. repeat split; reflexivity. Qed.

(* ------------------------------------------------------------------ *)
(** ** Further properties of the bookmarks *)
(* ------------------------------------------------------------------ *)

Lemma includes_toggleBookmark (sectionId other : string)
    (prev : list string) :
  includes (App.toggleBookmark sectionId prev) other
  = xorb (includes prev other) (String.eqb other sectionId).
Proof.
  unfold App.toggleBookmark.
  destruct (String.eqb_spec other sectionId) as [->|Hne].
  - destruct (includes prev sectionId) eqn:E.
    + now rewrite includes_filter_other.
    + rewrite includes_app, E. simpl. now rewrite String.eqb_refl.
  - rewrite xorb_false_r.
    assert (Hneq : String.eqb sectionId other = false).
    { apply String.eqb_neq. congruence. }
    destruct (includes prev sectionId).
    + induction prev as [|y l IH]; simpl; [reflexivity|].
      destruct (String.eqb_spec y sectionId) as [->|Hy]; simpl.
      * now rewrite IH, Hneq.
      * now rewrite IH.
    + rewrite includes_app. simpl. rewrite Hneq. apply orb_false_r.
Qed.

Lemma filter_toggleBookmark (sectionId : string) (prev : list string) :
  filter (fun id => negb (String.eqb id sectionId))
         (App.toggleBookmark sectionId prev)
  = filter (fun id => negb (String.eqb id sectionId)) prev.
Proof.
  unfold App.toggleBookmark. destruct (includes prev sectionId).
  - induction prev as [|y l IH]; simpl; [reflexivity|].
    destruct (String.eqb y sectionId) eqn:Ey; simpl; [exact IH|].
    rewrite Ey. simpl. now rewrite IH.
  - apply filter_app_last.
Qed.

(** X5: a toggle flips whether its own section is bookmarked, leaves every
    other section bookmarked or not as it was, and keeps the other
    bookmarks in their order. *)
Theorem toggleBookmark_flips_one (sectionId other : string)
    (prev : list string) :
  Settings.isBookmarked (App.toggleBookmark sectionId prev) sectionId
  = negb (Settings.isBookmarked prev sectionId)
  /\ Settings.isBookmarked (App.toggleBookmark sectionId prev) other
     = xorb (Settings.isBookmarked prev other) (String.eqb other sectionId)
  /\ filter (fun id => negb (String.eqb id sectionId))
            (App.toggleBookmark sectionId prev)
     = filter (fun id => negb (String.eqb id sectionId)) prev.
Proof.
  unfold Settings.isBookmarked. split; [|split].
  - rewrite includes_toggleBookmark, String.eqb_refl.
    now destruct (includes prev sectionId).
  - apply includes_toggleBookmark.
  - apply filter_toggleBookmark.
Qed.

Lemma toggleAll_NoDup (sectionIds bookmarks : list string) :
  NoDup bookmarks -> NoDup (Settings.toggleAll sectionIds bookmarks).
Proof.
  revert bookmarks. unfold Settings.toggleAll.
  induction sectionIds as [|x ids IH]; intros l Hl; simpl; [exact Hl|].
  apply IH. now apply toggleBookmark_NoDup.
Qed.

Lemma toggleAll_parity (sectionIds bookmarks : list string) (x : string) :
  includes (Settings.toggleAll sectionIds bookmarks) x =
  xorb (includes bookmarks x)
       (Nat.odd (count_occ string_dec sectionIds x)).
Proof.
  revert bookmarks. unfold Settings.toggleAll.
  induction sectionIds as [|y ids IH]; intros l; simpl.
  - now rewrite xorb_false_r.
  - rewrite IH, includes_toggleBookmark.
    destruct (string_dec y x) as [->|Hne].
    + rewrite String.eqb_refl, Nat.odd_succ, <- Nat.negb_odd.
      destruct (includes l x), (Nat.odd (count_occ string_dec ids x));
        reflexivity.
    + assert (Hneq : String.eqb x y = false).
      { apply String.eqb_neq. congruence. }
      rewrite Hneq. now rewrite xorb_false_r.
Qed.

(** X6: starting with no bookmark, after any run of presses on the bookmark
    button no section is bookmarked twice, and a section is bookmarked
    exactly when the button was pressed on it an odd number of times. *)
Theorem bookmarks_after_toggles (sectionIds : list string) (x : string) :
  NoDup (Settings.toggleAll sectionIds [])
  /\ Settings.isBookmarked (Settings.toggleAll sectionIds []) x
     = Nat.odd (count_occ string_dec sectionIds x).
Proof.
  split.
  - apply toggleAll_NoDup. constructor.
  - unfold Settings.isBookmarked. now rewrite toggleAll_parity.
Qed.

(* ------------------------------------------------------------------ *)
(** ** Further properties of the navigation *)
(* ------------------------------------------------------------------ *)

(** [findIndex] either misses, and then no element passes the test, or
    gives the position of an element that passes it, the first one. *)
Lemma findIndex_from_spec {A : Type} (p : A -> bool) (l : list A) (k : Z) :
  (findIndex_from p l k = (-1)%Z /\ forall a, In a l -> p a = false)
  \/ (exists i a, findIndex_from p l k = (k + Z.of_nat i)%Z
                  /\ nth_error l i = Some a /\ p a = true
                  /\ forall j b, (j < i)%nat -> nth_error l j = Some b ->
                                 p b = false).
Proof.
  revert k. induction l as [|a l IH]; intros k; simpl.
  - left. split; [reflexivity|]. intros a [].
  - destruct (p a) eqn:Ea.
    + right. exists 0%nat, a. repeat split; auto; [lia|].
      intros j b Hj. lia.
    + destruct (IH (k + 1)%Z) as [[Hm Hall]|(i & b & Hi & Hn & Hb & Hfirst)].
      * left. split; [exact Hm|]. intros c [<-|Hc]; auto.
      * right. exists (S i), b. repeat split; auto; [lia|].
        intros [|j] c Hj Hc; simpl in Hc.
        -- now injection Hc as <-.
        -- apply (Hfirst j c); [lia|exact Hc].
Qed.

Lemma findIndex_hit_some {A : Type} (p : A -> bool) (l : list A) (a : A) :
  In a l -> p a = true ->
  exists i b, findIndex p l = Z.of_nat i /\ nth_error l i = Some b
              /\ p b = true.
Proof.
  intros Ha Hp. unfold findIndex.
  destruct (findIndex_from_spec p l 0) as [[_ Hall]|(i & b & Hi & Hn & Hb & _)].
  - rewrite (Hall a Ha) in Hp. discriminate.
  - exists i, b. rewrite Hi. repeat split; auto.
Qed.

Lemma NoDup_app_disjoint {A : Type} (l1 l2 : list A) (a : A) :
  NoDup (l1 ++ l2) -> In a l1 -> ~ In a l2.
Proof.
  induction l1 as [|b l1 IH]; simpl; intros Hnd Ha; [contradiction|].
  inversion Hnd as [|? ? Hb Hl]; subst. destruct Ha as [<-|Ha].
  - intros H2. apply Hb, in_or_app. now right.
  - now apply IH.
Qed.

Lemma searchChapters_hit (chapters : list BookChapter) (x : string) :
  In x (map id (App.allSections chapters)) ->
  exists c i s,
    In c chapters
    /\ App.searchChapters chapters x =
       Some {| App.info_title := chapter_title c;
               App.info_index := Z.of_nat i;
               App.info_total := List.length (sections c);
               App.info_section := Some s |}
    /\ nth_error (sections c) i = Some s
    /\ id s = x.
Proof.
  induction chapters as [|c chapters IH]; intros Hx; [contradiction|].
  unfold App.allSections in Hx. simpl in Hx. rewrite map_app in Hx.
  simpl. unfold findIndex.
  destruct (findIndex_from_spec (App.hasId x) (sections c) 0)
    as [[Hm Hall]|(i & s & Hi & Hn & Hs & _)].
  - rewrite Hm. simpl.
    apply in_app_or in Hx. destruct Hx as [Hx|Hx].
    + apply in_map_iff in Hx. destruct Hx as (s & Hs & Hin).
      specialize (Hall s Hin). unfold App.hasId in Hall.
      rewrite Hs, String.eqb_refl in Hall. discriminate.
    + destruct (IH Hx) as (c' & i & s & Hc' & Hsearch & Hn & Hs).
      exists c', i, s. repeat split; auto; now right.
  - rewrite Hi. replace (0 + Z.of_nat i)%Z with (Z.of_nat i) by lia.
    destruct (Z.eqb_spec (Z.of_nat i) (-1)); [lia|]. simpl.
    exists c, i, s. rewrite at_index_of_nat, Hn.
    repeat split; auto; try (now left).
    now apply String.eqb_eq.
Qed.

(** X7: for an identifier carried by a section, the reader is given a
    section that carries it, together with the title of a chapter of the
    book, the position of the section in that chapter and the number of
    sections of the chapter, the position being below that number. *)
Theorem activeChapterInfo_found (bookData : list BookChapter) (x : string) :
  x <> "TOC" ->
  In x (map id (App.allSections bookData)) ->
  exists c i s,
    In c bookData
    /\ App.activeChapterInfo bookData x =
       Normal (Some {| App.info_title := chapter_title c;
                       App.info_index := Z.of_nat i;
                       App.info_total := List.length (sections c);
                       App.info_section := Some s |})
    /\ App.activeSection bookData x = Normal (Some s)
    /\ nth_error (sections c) i = Some s
    /\ id s = x
    /\ (i < List.length (sections c))%nat.
Proof.
  intros Htoc Hx.
  destruct (searchChapters_hit bookData x Hx)
    as (c & i & s & Hc & Hsearch & Hn & Hs).
  exists c, i, s.
  assert (Hinfo : App.activeChapterInfo bookData x =
                  Normal (Some {| App.info_title := chapter_title c;
                                  App.info_index := Z.of_nat i;
                                  App.info_total := List.length (sections c);
                                  App.info_section := Some s |})).
  { unfold App.activeChapterInfo.
    assert (HisTOC : App.isTOC x = false) by (now apply String.eqb_neq).
    now rewrite HisTOC, Hsearch. }
  repeat split; auto.
  - unfold App.activeSection. now rewrite Hinfo.
  - apply nth_error_Some. now rewrite Hn.
Qed.

Lemma activeChapterInfo_found_witness :
  exists c i s,
    In c Sample.book
    /\ App.activeChapterInfo Sample.book "marriage-2" =
       Normal (Some {| App.info_title := chapter_title c;
                       App.info_index := Z.of_nat i;
                       App.info_total := List.length (sections c);
                       App.info_section := Some s |})
    /\ App.activeSection Sample.book "marriage-2" = Normal (Some s)
    /\ nth_error (sections c) i = Some s
    /\ id s = "marriage-2"
    /\ (i < List.length (sections c))%nat.
Proof.
  apply (activeChapterInfo_found Sample.book "marriage-2").
  - discriminate.
  - simpl. auto.
Defined.

(** X8: in a book whose section identifiers are pairwise distinct and
    differ from the TOC sentinel, selecting a section by its identifier (an
    entry of the table of contents or of the sidebar) shows that very
    section, under the title of its own chapter and at its own position. *)
Theorem select_shows_section (pre post : list BookChapter) (c : BookChapter)
    (i : nat) (s : BookSection) :
  NoDup (map id (App.allSections (pre ++ c :: post))) ->
  ~ In "TOC" (map id (App.allSections (pre ++ c :: post))) ->
  nth_error (sections c) i = Some s ->
  App.activeChapterInfo (pre ++ c :: post) (id s) =
  Normal (Some {| App.info_title := chapter_title c;
                  App.info_index := Z.of_nat i;
                  App.info_total := List.length (sections c);
                  App.info_section := Some s |}).
Proof.
  intros Hnd Htoc Hi.
  assert (Hin : In s (sections c)) by (eapply nth_error_In; eauto).
  assert (HisTOC : App.isTOC (id s) = false).
  { apply String.eqb_neq. intros E. apply Htoc. rewrite <- E.
    apply in_map. unfold App.allSections. rewrite flat_map_app. simpl.
    apply in_or_app. right. apply in_or_app. now left. }
  unfold App.activeChapterInfo. rewrite HisTOC.
  unfold App.allSections in Hnd. rewrite flat_map_app, map_app in Hnd.
  simpl in Hnd. rewrite map_app in Hnd.
  assert (Hsearch : App.searchChapters (pre ++ c :: post) (id s) =
                    Some {| App.info_title := chapter_title c;
                            App.info_index := Z.of_nat i;
                            App.info_total := List.length (sections c);
                            App.info_section := Some s |}).
  { clear Htoc HisTOC. induction pre as [|c0 pre IH]; simpl in *.
    - apply NoDup_app_remove_r in Hnd.
      rewrite (findIndex_hit (sections c) i s Hnd Hi).
      destruct (Z.eqb_spec (Z.of_nat i) (-1)); [lia|]. simpl.
      now rewrite at_index_of_nat, Hi.
    - rewrite map_app, <- app_assoc in Hnd.
      assert (Hmiss : findIndex (App.hasId (id s)) (sections c0) = (-1)%Z).
      { apply findIndex_from_miss. intros a Ha. apply String.eqb_neq.
        intros E.
        apply (NoDup_app_disjoint _ _ (id a) Hnd); [now apply in_map|].
        apply in_or_app. right. apply in_or_app. left.
        rewrite E. now apply in_map. }
      rewrite Hmiss. simpl. apply IH.
      now apply NoDup_app_remove_l in Hnd. }
  now rewrite Hsearch.
Qed.

Lemma select_shows_section_witness :
  App.activeChapterInfo Sample.book (id Sample.marriage2) =
  Normal (Some {| App.info_title := "Marriage";
                  App.info_index := 1;
                  App.info_total := 2;
                  App.info_section := Some Sample.marriage2 |}).
Proof.
  apply (select_shows_section
           [mkChapter "intro" "Introduction" [Sample.intro1; Sample.intro2]]
           []
           (mkChapter "marriage" "Marriage"
                      [Sample.marriage1; Sample.marriage2])
           1 Sample.marriage2).
  - exact sample_ids_distinct.
  - exact sample_ids_not_TOC.
  - reflexivity.
Defined.

(** X9: in a book without any section the table of contents cannot be
    computed (the first section is read off [undefined]); any other
    identifier has the table of contents before it and nothing after it,
    and its chapter information is that of the first chapter with no
    section to show, or an error when the book has no chapter either. *)
Theorem book_without_sections (bookData : list BookChapter) (x : string) :
  App.allSections bookData = [] ->
  App.prevNext bookData "TOC" = TypeError
  /\ (if App.isTOC x then True
      else App.prevNext bookData x =
             Normal {| App.prevSection := Some App.tocLink;
                       App.nextSection := None |}
           /\ App.activeChapterInfo bookData x =
              match bookData with
              | firstChapter :: _ =>
                  Normal (Some {| App.info_title := chapter_title firstChapter;
                                  App.info_index := 0;
                                  App.info_total := 0;
                                  App.info_section := None |})
              | [] => TypeError
              end).
Proof.
  intros Hempty. split.
  - unfold App.prevNext. now rewrite Hempty.
  - destruct (App.isTOC x) eqn:HisTOC; [exact I|]. split.
    + unfold App.prevNext. now rewrite HisTOC, Hempty.
    + unfold App.activeChapterInfo. rewrite HisTOC.
      rewrite searchChapters_miss by (rewrite Hempty; intros []).
      destruct bookData as [|c rest]; [reflexivity|].
      unfold App.allSections in Hempty. simpl in Hempty.
      apply app_eq_nil in Hempty. destruct Hempty as [Hc _].
      now rewrite Hc.
Qed.

Lemma book_without_sections_witness :
  App.prevNext [mkChapter "c" "Empty chapter" []] "TOC" = TypeError
  /\ App.prevNext [mkChapter "c" "Empty chapter" []] "intro-1" =
       Normal {| App.prevSection := Some App.tocLink;
                 App.nextSection := None |}
  /\ App.activeChapterInfo [mkChapter "c" "Empty chapter" []] "intro-1" =
       Normal (Some {| App.info_title := "Empty chapter";
                       App.info_index := 0;
                       App.info_total := 0;
                       App.info_section := None |}).
Proof.
  destruct (book_without_sections [mkChapter "c" "Empty chapter" []]
              "intro-1") as [H1 H2].
  - reflexivity.
  - simpl in H2. exact (conj H1 H2).
Defined.

Section Walks.

Variable bookData : list BookChapter.

Local Abbreviation all := (App.allSections bookData).

Hypothesis ids_distinct : NoDup (map id all).
Hypothesis ids_not_TOC : ~ In "TOC" (map id all).

Lemma successor_at (i : nat) (x : BookSection) :
  nth_error all i = Some x ->
  App.successor bookData (id x) =
  option_map App.LinkSection (nth_error all (S i)).
Proof.
  intros Hi. unfold App.successor.
  rewrite (prevNext_at bookData i x ids_distinct ids_not_TOC Hi).
  cbv beta iota delta [App.nextSection].
  destruct (Z.ltb_spec (Z.of_nat i) (Z.of_nat (List.length all) - 1)).
  - replace (Z.of_nat i + 1)%Z with (Z.of_nat (S i)) by lia.
    now rewrite at_index_of_nat.
  - assert (Hnone : nth_error all (S i) = None)
      by (apply nth_error_None; lia).
    now rewrite Hnone.
Qed.

Lemma predecessor_at (i : nat) (x : BookSection) :
  nth_error all i = Some x ->
  App.predecessor bookData (id x) =
  match i with
  | O => Some App.tocLink
  | S j => option_map App.LinkSection (nth_error all j)
  end.
Proof.
  intros Hi. unfold App.predecessor.
  rewrite (prevNext_at bookData i x ids_distinct ids_not_TOC Hi).
  cbv beta iota delta [App.prevSection].
  destruct i as [|j]; [reflexivity|].
  destruct (Z.gtb_spec (Z.of_nat (S j)) 0); [|lia].
  replace (Z.of_nat (S j) - 1)%Z with (Z.of_nat j) by lia.
  now rewrite at_index_of_nat.
Qed.

Lemma skipn_nth_error {A : Type} (l : list A) (i : nat) (a : A) :
  nth_error l i = Some a -> skipn i l = a :: skipn (S i) l.
Proof.
  revert i. induction l as [|b l IH]; intros [|i] Hi; try discriminate.
  - now injection Hi as ->.
  - simpl in Hi. simpl. now apply IH.
Qed.

Lemma firstn_nth_error {A : Type} (l : list A) (i : nat) (a : A) :
  nth_error l i = Some a -> firstn (S i) l = (firstn i l ++ [a])%list.
Proof.
  revert i. induction l as [|b l IH]; intros [|i] Hi; try discriminate.
  - now injection Hi as ->.
  - simpl in Hi. simpl. f_equal. now apply IH.
Qed.

Lemma readForward_from (presses i : nat) (x : BookSection) :
  nth_error all i = Some x ->
  (List.length all - S i <= presses)%nat ->
  Nav.readForward presses bookData (id x) = map id (skipn (S i) all).
Proof.
  revert i x. induction presses as [|presses IH]; intros i x Hi Hlen.
  - rewrite skipn_all2 by lia. reflexivity.
  - cbn [Nav.readForward]. unfold Nav.pressNext.
    rewrite (successor_at i x Hi).
    destruct (nth_error all (S i)) as [y|] eqn:Hy; cbn [option_map].
    + cbn [App.navId]. rewrite (IH (S i) y Hy) by lia.
      now rewrite (skipn_nth_error all (S i) y Hy).
    + apply nth_error_None in Hy. rewrite skipn_all2 by lia. reflexivity.
Qed.

Lemma readBackward_TOC (presses : nat) :
  Nav.readBackward presses bookData "TOC" = [].
Proof.
  destruct presses as [|presses]; [reflexivity|].
  cbn [Nav.readBackward]. unfold Nav.pressPrev, App.predecessor, App.prevNext.
  change (App.isTOC "TOC") with true. cbv iota.
  now destruct (at_index all 0).
Qed.

Lemma readBackward_from (i presses : nat) (x : BookSection) :
  nth_error all i = Some x ->
  (S i <= presses)%nat ->
  Nav.readBackward presses bookData (id x) =
  (rev (map id (firstn i all)) ++ ["TOC"])%list.
Proof.
  revert presses x. induction i as [|j IH]; intros presses x Hi Hlen;
    (destruct presses as [|presses]; [lia|]);
    cbn [Nav.readBackward]; unfold Nav.pressPrev;
    rewrite (predecessor_at _ x Hi); cbn [option_map].
  - cbn [App.navId App.tocLink]. now rewrite readBackward_TOC.
  - destruct (nth_error all j) as [y|] eqn:Hy.
    + cbn [option_map App.navId]. rewrite (IH presses y eq_refl) by lia.
      rewrite (firstn_nth_error all j y Hy), map_app, rev_app_distr.
      reflexivity.
    + apply nth_error_None in Hy.
      assert (S j < List.length all)%nat; [|lia].
      apply nth_error_Some. now rewrite Hi.
Qed.

End Walks.

(** X10: in a book whose section identifiers are pairwise distinct and
    differ from the TOC sentinel, the next button of the section at position
    [i] of the flattened order leads to the section at position [i + 1] and
    is absent on the last section; the previous button leads to the section
    at position [i - 1], and to the table of contents from the first one. *)
Theorem neighbours_in_document_order (bookData : list BookChapter) (i : nat)
    (x : BookSection) :
  NoDup (map id (App.allSections bookData)) ->
  ~ In "TOC" (map id (App.allSections bookData)) ->
  nth_error (App.allSections bookData) i = Some x ->
  App.successor bookData (id x) =
    option_map App.LinkSection (nth_error (App.allSections bookData) (S i))
  /\ App.predecessor bookData (id x) =
    match i with
    | O => Some App.tocLink
    | S j => option_map App.LinkSection (nth_error (App.allSections bookData) j)
    end.
Proof.
  intros Hnd Htoc Hi. split.
  - now apply successor_at.
  - now apply predecessor_at.
Qed.

Lemma neighbours_in_document_order_witness :
  App.successor Sample.book (id Sample.marriage2) = None
  /\ App.predecessor Sample.book (id Sample.marriage2)
     = Some (App.LinkSection Sample.marriage1).
Proof.
  apply (neighbours_in_document_order Sample.book 3 Sample.marriage2).
  - exact sample_ids_distinct.
  - exact sample_ids_not_TOC.
  - reflexivity.
Defined.

(** X11: in such a book, if it has a section, pressing the next button
    from the table of contents as long as there is one shows every section
    once, in the flattened order, and then stops: there is no wrap-around.
    (Without any section the table of contents has no next button to
    compute: [prevNext] throws.) *)
Theorem next_reads_the_whole_book (bookData : list BookChapter) :
  App.allSections bookData <> [] ->
  NoDup (map id (App.allSections bookData)) ->
  ~ In "TOC" (map id (App.allSections bookData)) ->
  (exists pn, App.prevNext bookData "TOC" = Normal pn)
  /\ Nav.readForward (S (List.length (App.allSections bookData))) bookData
       "TOC"
     = map id (App.allSections bookData)
  /\ Nav.readForward (S (List.length (App.allSections bookData))) bookData
       "TOC" <> [].
Proof.
  intros Hne Hnd Htoc.
  assert (Hwalk :
    Nav.readForward (S (List.length (App.allSections bookData))) bookData
      "TOC" = map id (App.allSections bookData)).
  { cbn [Nav.readForward].
    unfold Nav.pressNext, App.successor, App.prevNext.
    change (App.isTOC "TOC") with true. cbv iota.
    destruct (App.allSections bookData) as [|first rest] eqn:Hall;
      [contradiction|].
    change (at_index (first :: rest) 0) with (Some first).
    cbv beta iota delta [App.nextSection option_map App.navId].
    rewrite <- Hall in Hnd, Htoc.
    rewrite (readForward_from bookData Hnd Htoc _ 0 first).
    - now rewrite Hall.
    - now rewrite Hall.
    - rewrite Hall. simpl. lia. }
  split; [|split].
  - unfold App.prevNext. change (App.isTOC "TOC") with true. cbv iota.
    destruct (App.allSections bookData) as [|first rest]; [contradiction|].
    change (at_index (first :: rest) 0) with (Some first). eauto.
  - exact Hwalk.
  - rewrite Hwalk. destruct (App.allSections bookData); [contradiction|].
    discriminate.
Qed.

Lemma next_reads_the_whole_book_witness :
  (exists pn, App.prevNext Sample.book "TOC" = Normal pn)
  /\ Nav.readForward 5 Sample.book "TOC" =
     ["intro-1"; "intro-2"; "marriage-1"; "marriage-2"]
  /\ Nav.readForward 5 Sample.book "TOC" <> [].
Proof.
  apply (next_reads_the_whole_book Sample.book).
  - discriminate.
  - exact sample_ids_distinct.
  - exact sample_ids_not_TOC.
Defined.

(** X12: in such a book, pressing the previous button from the section at
    position [i] shows the [i] sections before it in reverse order, then the
    table of contents, where the button is absent. *)
Theorem prev_leads_back_to_TOC (bookData : list BookChapter) (i : nat)
    (x : BookSection) :
  NoDup (map id (App.allSections bookData)) ->
  ~ In "TOC" (map id (App.allSections bookData)) ->
  nth_error (App.allSections bookData) i = Some x ->
  Nav.readBackward (S (S i)) bookData (id x) =
  (rev (map id (firstn i (App.allSections bookData))) ++ ["TOC"])%list.
Proof.
  intros Hnd Htoc Hi.
  apply (readBackward_from bookData Hnd Htoc i (S (S i)) x Hi). lia.
Qed.

Lemma prev_leads_back_to_TOC_witness :
  Nav.readBackward 4 Sample.book (id Sample.marriage1) =
  ["intro-2"; "intro-1"; "TOC"].
Proof.
  apply (prev_leads_back_to_TOC Sample.book 2 Sample.marriage1).
  - exact sample_ids_distinct.
  - exact sample_ids_not_TOC.
  - reflexivity.
Defined.

(** With an identifier carried by two sections the second of them cannot be
    left forwards: its next button leads to the section after the first. *)
Lemma duplicate_identifier_loops :
  let twin := mkSection "intro-1" "Preface again" [] in
  let book := [mkChapter "c" "Chapter" [Sample.intro1; Sample.intro2; twin;
                                        Sample.marriage1]] in
  App.successor book (id twin) = Some (App.LinkSection Sample.intro2)
  /\ App.activeSection book (id twin) = Normal (Some Sample.intro1).
Proof. split; reflexivity. Qed.

(** *** Bookmarks in the sidebar *)

Lemma find_hasId_id (l : list BookSection) (x : string) (found : BookSection) :
  find (App.hasId x) l = Some found -> id found = x.
Proof.
  intros H. apply find_some in H. destruct H as [_ H].
  now apply String.eqb_eq.
Qed.

Lemma find_hasId_includes (l : list BookSection) (x : string) :
  includes (map id l) x = match find (App.hasId x) l with
                          | Some _ => true
                          | None => false
                          end.
Proof.
  induction l as [|s l IH]; simpl; [reflexivity|].
  unfold App.hasId at 1. destruct (String.eqb (id s) x); [reflexivity|].
  exact IH.
Qed.

Lemma bookmarkedSections_fold (l : list BookSection) (bookmarks : list string)
    (results : list (string * string)) :
  map fst
    (fold_left
       (fun results bookmark =>
          match find (App.hasId bookmark) l with
          | Some found => (results ++ [(id found, title found)])%list
          | None => results
          end)
       bookmarks results)
  = (map fst results ++ filter (includes (map id l)) bookmarks)%list.
Proof.
  revert results. induction bookmarks as [|b bookmarks IH]; intros results.
  - simpl. now rewrite app_nil_r.
  - cbn [fold_left filter]. rewrite IH, find_hasId_includes.
    destruct (find (App.hasId b) l) as [found|] eqn:E; [|reflexivity].
    rewrite map_app. cbn [map fst]. rewrite (find_hasId_id l b found E).
    now rewrite <- app_assoc.
Qed.

(** X13: the bookmark list of the sidebar shows, in the order of the
    bookmark list, exactly the bookmarks that some section of the book
    carries, so that a bookmark of a section that is no longer in the book
    is not shown; it shows as many entries as bookmarks when every bookmark
    is carried. *)
Theorem bookmarkedSections_ids (data : list BookChapter)
    (bookmarks : list string) :
  map fst (Nav.bookmarkedSections data bookmarks)
  = filter (includes (map id (App.allSections data))) bookmarks.
Proof.
  unfold Nav.bookmarkedSections.
  destruct bookmarks as [|b bookmarks]; [reflexivity|].
  change (List.length (b :: bookmarks) =? 0)%nat with false. cbv iota.
  apply (bookmarkedSections_fold (flat_map sections data) (b :: bookmarks) []).
Qed.

(** X23: each entry of that list carries an identifier of the bookmark
    list and the title of the first section of the book with that
    identifier. *)
Lemma bookmarkedSections_titles (data : list BookChapter)
    (bookmarks : list string) (entry : string * string) :
  In entry (Nav.bookmarkedSections data bookmarks) ->
  exists found,
    find (App.hasId (fst entry)) (App.allSections data) = Some found
    /\ snd entry = title found
    /\ In (fst entry) bookmarks.
Proof.
  unfold Nav.bookmarkedSections.
  destruct bookmarks as [|b0 bookmarks0]; [intros []|].
  change (List.length (b0 :: bookmarks0) =? 0)%nat with false. cbv iota.
  generalize (b0 :: bookmarks0). clear b0 bookmarks0. intros bookmarks.
  assert (Hgen : forall results,
    In entry
       (fold_left
          (fun results bookmark =>
             match find (App.hasId bookmark) (flat_map sections data) with
             | Some found => (results ++ [(id found, title found)])%list
             | None => results
             end)
          bookmarks results) ->
    In entry results
    \/ exists found,
         find (App.hasId (fst entry)) (App.allSections data) = Some found
         /\ snd entry = title found /\ In (fst entry) bookmarks).
  { induction bookmarks as [|b bookmarks IH]; intros results Hin;
      [now left|].
    cbn [fold_left] in Hin. apply IH in Hin.
    destruct Hin as [Hin|(found & Hf & Ht & Hb)].
    - destruct (find (App.hasId b) (flat_map sections data))
        as [found|] eqn:E; [|now left].
      apply in_app_or in Hin. destruct Hin as [Hin|[<-|[]]]; [now left|].
      right. exists found. cbn [fst snd].
      rewrite (find_hasId_id _ b found E). repeat split; auto.
      now left.
    - right. exists found. repeat split; auto. now right. }
  intros Hin. destruct (Hgen [] Hin) as [[]|H]. exact H.
Qed.

(* ------------------------------------------------------------------ *)
(** ** Further properties of the narration *)
(* ------------------------------------------------------------------ *)

Lemma string_length_app (a b : string) :
  String.length (a ++ b) = (String.length a + String.length b)%nat.
Proof.
  induction a as [|c a IH]; simpl; [reflexivity|]. now rewrite IH.
Qed.

(** X14: the narration text is the title line followed by what each block
    adds, block after block: the text of a section whose content is two
    runs of blocks is the text of the first run followed by the lines of the
    second, and it is at least four characters longer than the title. *)
Theorem extractText_blockwise (i t : string) (first second : list Block) :
  Reader.extractText (mkSection i t (first ++ second)) =
    Reader.extractText (mkSection i t first)
    ++ fold_right String.append "" (map HostLog.blockLines second)
  /\ Reader.extractText (mkSection i t first) =
    t ++ ". " ++ LF ++ LF
      ++ fold_right String.append "" (map HostLog.blockLines first)
  /\ (String.length t + 4 <=
      String.length (Reader.extractText (mkSection i t first)))%nat.
Proof.
  assert (Hclosed : forall blocks,
            Reader.extractText (mkSection i t blocks) =
            t ++ ". " ++ LF ++ LF
              ++ fold_right String.append ""
                   (map HostLog.blockLines blocks)).
  { intros blocks. unfold Reader.extractText. cbn [content title].
    rewrite fold_appendBlock_blockLines.
    now rewrite !string_app_assoc. }
  split; [|split].
  - unfold Reader.extractText. cbn [content title].
    rewrite fold_appendBlock_app.
    now rewrite (fold_appendBlock_blockLines second).
  - apply Hclosed.
  - rewrite Hclosed, !string_length_app. simpl. lia.
Qed.

(** *** The controller and the host *)

Lemma lastRequest_app (log : list Reader.HostRequest) (r : Reader.HostRequest) :
  HostLog.lastRequest (log ++ [r]) = Some r.
Proof.
  induction log as [|r0 log IH]; [reflexivity|].
  simpl. destruct (log ++ [r])%list eqn:E; [|exact IH].
  destruct log; discriminate.
Qed.

Lemma endsWithCancel_app (log : list Reader.HostRequest)
    (r : Reader.HostRequest) (b : bool) :
  HostLog.endsWithCancel b (log ++ [r]) = HostLog.endsWithCancel false [r].
Proof.
  revert b. induction log as [|r0 log IH]; intros b.
  - destruct r; reflexivity.
  - simpl. destruct r0; apply IH.
Qed.

Lemma cancelsBeforeSpeak_app (log tail : list Reader.HostRequest) (b : bool) :
  HostLog.cancelsBeforeSpeak b (log ++ tail) =
  HostLog.cancelsBeforeSpeak b log
  && HostLog.cancelsBeforeSpeak (HostLog.endsWithCancel b log) tail.
Proof.
  revert b. induction log as [|r log IH]; intros b; simpl.
  - reflexivity.
  - destruct r; rewrite IH; try reflexivity.
    now rewrite andb_assoc.
Qed.

(** Runs the branches of a handler on a state whose flags are kept in the
    context. *)
Ltac handler_cases s :=
  unfold Reader.changeSection, Reader.sectionEffect, Reader.closePlayer;
  unfold Reader.handlePlay, Reader.handleStop, Reader.onboundary,
    Reader.onend, Reader.onerror, Reader.togglePlayer;
  cbn [Reader.synthRef Reader.isPaused Reader.isPlaying Reader.section
       Reader.setSection];
  repeat match goal with
         | |- context [if ?c then _ else _] => destruct c eqn:?
         end;
  cbn [Reader.synthRef Reader.isPaused Reader.isPlaying Reader.progress
       Reader.utteranceRef Reader.host Reader.showPlayer Reader.section
       Reader.console
       Reader.setShowPlayer Reader.setIsPlaying Reader.setIsPaused
       Reader.setProgress Reader.setUtterance Reader.setSection
       Reader.request Reader.consoleError] in *.

(** The facility found at mount time is the one used ever after. *)
Lemma synthRef_step (s : Reader.State) (op : Reader.Op) :
  Reader.synthRef (Reader.step s op) = Reader.synthRef s.
Proof.
  destruct op; cbn [Reader.step]; handler_cases s; congruence.
Qed.

Lemma synthRef_after (ops : list Reader.Op) (sec : BookSection)
    (synth : bool) :
  Reader.synthRef (HostLog.after ops sec synth) = synth.
Proof.
  unfold HostLog.after, Reader.run.
  assert (H : forall s, Reader.synthRef (fold_left Reader.step ops s)
                        = Reader.synthRef s).
  { induction ops as [|op ops IH]; intros s; [reflexivity|].
    simpl. now rewrite IH, synthRef_step. }
  now rewrite H.
Qed.

(** The facts about the flags, the refs and the log of requests that every
    operation keeps. *)
Lemma controller_invariant (s : Reader.State) :
  Reader.reachable s ->
  (Reader.isPlaying s = true ->
   Reader.isPaused s = false /\ Reader.synthRef s = true
   /\ Reader.utteranceRef s <> None
   /\ HostLog.startsSpeech (HostLog.lastRequest (Reader.host s)) = true)
  /\ (Reader.isPaused s = true ->
      Reader.isPlaying s = false /\ Reader.synthRef s = true
      /\ Reader.utteranceRef s <> None
      /\ HostLog.isPauseRequest (HostLog.lastRequest (Reader.host s)) = true)
  /\ HostLog.cancelsBeforeSpeak false (Reader.host s) = true
  /\ (Reader.synthRef s = false ->
      Reader.host s = [] /\ Reader.utteranceRef s = None).
Proof.
  induction 1 as [sec synth|s op Hs IH].
  - destruct synth; cbn; repeat split; intros; discriminate.
  - destruct IH as (Hplay & Hpause & Hcancel & Hnone).
    destruct (Reader.isPlaying s) eqn:Eplaying;
      destruct (Reader.isPaused s) eqn:Epaused;
      destruct (Reader.synthRef s) eqn:Esynth;
      repeat match goal with
             | H : true = true -> _ |- _ => specialize (H eq_refl)
             | H : false = true -> _ |- _ => clear H
             end;
      destruct op; cbn [Reader.step]; handler_cases s;
      rewrite ?Eplaying, ?Epaused, ?Esynth in *; cbn [negb] in *;
      repeat split; intros; try discriminate; try tauto;
      rewrite ?lastRequest_app, ?cancelsBeforeSpeak_app,
        ?endsWithCancel_app, ?Hcancel;
      try reflexivity; try tauto; try congruence.
Qed.

(** X15: in every state of the reader the two flags are never both set,
    and a narration is playing or paused only where the host has a speech
    facility and the reader holds the utterance. *)
Theorem narration_needs_utterance (s : Reader.State) :
  Reader.reachable s ->
  Reader.isPlaying s && Reader.isPaused s = false
  /\ match Reader.playback s with
     | Reader.Idle => True
     | _ => Reader.synthRef s = true /\ Reader.utteranceRef s <> None
     end.
Proof.
  intros Hs. destruct (controller_invariant s Hs) as (Hplay & Hpause & _).
  unfold Reader.playback.
  destruct (Reader.isPlaying s).
  - destruct (Hplay eq_refl) as (-> & Hsynth & Hutt & _). auto.
  - destruct (Reader.isPaused s); [|auto].
    destruct (Hpause eq_refl) as (_ & Hsynth & Hutt & _). auto.
Qed.

Lemma narration_needs_utterance_witness :
  let s := HostLog.after [Reader.OpPlay; Reader.OpPlay] Sample.intro1 true in
  Reader.isPlaying s && Reader.isPaused s = false
  /\ match Reader.playback s with
     | Reader.Idle => True
     | _ => Reader.synthRef s = true /\ Reader.utteranceRef s <> None
     end.
Proof.
  apply narration_needs_utterance.
  apply reachable_run. apply Reader.reach_mount.
Defined.

(** X16: the state shown agrees with the last request sent to the host:
    while the reader shows Playing the last request was to speak or to
    resume, and while it shows Paused the last request was to pause. *)
Theorem playback_follows_last_request (s : Reader.State) :
  Reader.reachable s ->
  match Reader.playback s with
  | Reader.Playing =>
      HostLog.startsSpeech (HostLog.lastRequest (Reader.host s)) = true
  | Reader.Paused =>
      HostLog.isPauseRequest (HostLog.lastRequest (Reader.host s)) = true
  | Reader.Idle => True
  end.
Proof.
  intros Hs. destruct (controller_invariant s Hs) as (Hplay & Hpause & _).
  unfold Reader.playback.
  destruct (Reader.isPlaying s); [apply Hplay; reflexivity|].
  destruct (Reader.isPaused s); [apply Hpause; reflexivity|exact I].
Qed.

Lemma playback_follows_last_request_witness :
  HostLog.isPauseRequest
    (HostLog.lastRequest
       (Reader.host
          (HostLog.after [Reader.OpPlay; Reader.OpBoundary "" "word" 3;
                          Reader.OpPlay] Sample.intro1 true))) = true.
Proof.
  apply (playback_follows_last_request
           (HostLog.after [Reader.OpPlay; Reader.OpBoundary "" "word" 3;
                           Reader.OpPlay] Sample.intro1 true)).
  apply reachable_run. apply Reader.reach_mount.
Defined.

(** X17: every request to speak comes right after a request to cancel, so
    that the host never queues a second utterance behind one in flight. *)
Theorem speak_only_after_cancel (s : Reader.State) :
  Reader.reachable s ->
  HostLog.cancelsBeforeSpeak false (Reader.host s) = true.
Proof.
  intros Hs. now destruct (controller_invariant s Hs) as (_ & _ & H & _).
Qed.

Lemma speak_only_after_cancel_witness :
  HostLog.cancelsBeforeSpeak false
    (Reader.host
       (HostLog.after [Reader.OpPlay; Reader.OpEnd; Reader.OpPlay;
                       Reader.OpStop; Reader.OpPlay] Sample.intro1 true))
  = true.
Proof.
  apply speak_only_after_cancel.
  apply reachable_run. apply Reader.reach_mount.
Defined.

(** The predicate does tell logs apart: a [Speak] first, or after a
    [Pause], is refused. *)
Example cancelsBeforeSpeak_refuses :
  HostLog.cancelsBeforeSpeak false [Reader.Speak "t" "ru-RU" 1 1] = false
  /\ HostLog.cancelsBeforeSpeak false
       [Reader.Cancel; Reader.Pause; Reader.Speak "t" "ru-RU" 1 1] = false
  /\ HostLog.cancelsBeforeSpeak false
       [Reader.Cancel; Reader.Speak "t" "ru-RU" 1 1] = true.
Proof. repeat split; reflexivity. Qed.

(** X18: where the host has no speech facility the reader never asks it
    for anything, holds no utterance and stays idle, whatever is done. *)
Theorem silent_without_facility (ops : list Reader.Op) (sec : BookSection) :
  Reader.host (HostLog.after ops sec false) = []
  /\ Reader.utteranceRef (HostLog.after ops sec false) = None
  /\ Reader.playback (HostLog.after ops sec false) = Reader.Idle.
Proof.
  assert (Hs : Reader.reachable (HostLog.after ops sec false))
    by (apply reachable_run; constructor).
  pose proof (synthRef_after ops sec false) as Hsynth.
  destruct (controller_invariant _ Hs) as (Hplay & Hpause & _ & Hnone).
  destruct (Hnone Hsynth) as [Hhost Hutt].
  repeat split; auto.
  unfold Reader.playback.
  destruct (Reader.isPlaying (HostLog.after ops sec false)).
  - destruct (Hplay eq_refl) as (_ & H & _). congruence.
  - destruct (Reader.isPaused (HostLog.after ops sec false)); [|reflexivity].
    destruct (Hpause eq_refl) as (_ & H & _). congruence.
Qed.

(** X19: the progress shown is a percentage, between 0 and 100, in every
    state of the reader, whatever character offsets the host reports. *)
Theorem progress_is_a_percentage (s : Reader.State) :
  Reader.reachable s -> 0 <= Reader.progress s /\ Reader.progress s <= 100.
Proof. apply progress_in_range. Qed.

Lemma progress_is_a_percentage_witness :
  let s := HostLog.after [Reader.OpPlay; Reader.OpBoundary "abc" "word" 7]
             Sample.intro1 true in
  0 <= Reader.progress s /\ Reader.progress s <= 100.
Proof.
  apply progress_is_a_percentage.
  apply reachable_run. apply Reader.reach_mount.
Defined.

Lemma boundary_len_positive (n : nat) :
  0 < inject_Z (Z.of_nat (if (0 <? n)%nat then n else 1%nat)).
Proof.
  change 0 with (inject_Z 0). rewrite <- Zlt_Qlt.
  destruct (Nat.ltb_spec 0 n); lia.
Qed.

(** X20: the progress set by a boundary callback does not decrease when the
    reported offset grows, and it is 100 as soon as a word or sentence
    boundary is reported at or past the length of a non-empty text, the
    length being [text.length], counted in UTF-16 code units. *)
Theorem onboundary_monotone (text name : string) (c1 c2 : N)
    (s : Reader.State) :
  (c1 <= c2)%N ->
  Reader.progress (Reader.onboundary text name c1 s)
  <= Reader.progress (Reader.onboundary text name c2 s)
  /\ (if (String.eqb name "word" || String.eqb name "sentence")
         && (0 <? utf16Length text)%nat
         && (N.of_nat (utf16Length text) <=? c1)%N
      then Reader.progress (Reader.onboundary text name c1 s) == 100
      else True).
Proof.
  intros Hc. unfold Reader.onboundary.
  destruct (String.eqb name "word" || String.eqb name "sentence");
    cbn [andb Reader.progress Reader.setProgress].
  2:{ split; [apply Qle_refl|exact I]. }
  pose proof (boundary_len_positive (utf16Length text)) as Hlen.
  split.
  - apply Q.min_le_compat_r.
    apply Qmult_le_compat_r; [|discriminate].
    apply Qmult_le_compat_r; [|apply Qlt_le_weak, Qinv_lt_0_compat, Hlen].
    rewrite <- Zle_Qle. lia.
  - destruct (Nat.ltb_spec 0 (utf16Length text)) as [Hpos|];
      cbn [andb]; [|exact I].
    destruct (N.leb_spec (N.of_nat (utf16Length text)) c1); [|exact I].
    assert (Hlen' : 0 < inject_Z (Z.of_nat (utf16Length text))).
    { change 0 with (inject_Z 0). rewrite <- Zlt_Qlt. lia. }
    apply Q.min_r.
    apply Qle_trans with (inject_Z (Z.of_nat (utf16Length text))
                          / inject_Z (Z.of_nat (utf16Length text)) * 100).
    + rewrite Qmult_comm. unfold Qdiv. rewrite Qmult_inv_r.
      * discriminate.
      * intros E. rewrite E in Hlen'. apply (Qlt_irrefl 0 Hlen').
    + apply Qmult_le_compat_r; [|discriminate].
      apply Qmult_le_compat_r.
      * rewrite <- Zle_Qle. lia.
      * apply Qlt_le_weak, Qinv_lt_0_compat, Hlen'.
Qed.

Lemma onboundary_monotone_witness :
  let s := Reader.mount Sample.intro1 true in
  Reader.progress (Reader.onboundary "Брак" "word" 1 s)
  <= Reader.progress (Reader.onboundary "Брак" "word" 4 s)
  /\ Reader.progress (Reader.onboundary "Брак" "word" 4 s) == 100.
Proof.
  intros s.
  destruct (onboundary_monotone "Брак" "word" 1 4 s) as [H _].
  - vm_compute. discriminate.
  - destruct (onboundary_monotone "Брак" "word" 4 4 s) as [_ H100].
    + vm_compute. discriminate.
    + exact (conj H H100).
Defined.

(** The length of a text is counted in code units, not in bytes. *)
Example utf16Length_cyrillic :
  utf16Length "Брак" = 4%nat /\ String.length "Брак" = 8%nat
  /\ utf16Length "T. a" = 4%nat.
Proof. repeat split; reflexivity. Qed.

(** X21: where the host has a speech facility, a stop followed by a play
    starts the narration of the section on display anew, whatever the state
    before: the reader is Playing at progress 0, holds the utterance of the
    current text, and the host has been asked to cancel, cancel and speak. *)
Theorem stop_then_play_restarts (s : Reader.State) :
  Reader.synthRef s = true ->
  let text := Reader.extractText (Reader.section s) in
  let s' := Reader.handlePlay (Reader.handleStop s) in
  Reader.playback s' = Reader.Playing
  /\ Reader.progress s' = 0
  /\ Reader.utteranceRef s' = Some text
  /\ Reader.host s' =
     (Reader.host s
        ++ [Reader.Cancel; Reader.Cancel; Reader.Speak text "ru-RU" 1 1])%list.
Proof.
  intros Hsynth text s'. subst s'.
  rewrite handlePlay_from_idle.
  - unfold Reader.handleStop. rewrite Hsynth. simpl.
    repeat split; try reflexivity.
    now rewrite <- !app_assoc.
  - unfold Reader.handleStop. now rewrite Hsynth.
  - reflexivity.
  - reflexivity.
Qed.

Lemma stop_then_play_restarts_witness :
  let s := HostLog.after [Reader.OpPlay; Reader.OpBoundary "" "word" 9;
                          Reader.OpPlay] Sample.intro2 true in
  Reader.playback s = Reader.Paused
  /\ Reader.playback (Reader.handlePlay (Reader.handleStop s)) = Reader.Playing
  /\ Reader.progress (Reader.handlePlay (Reader.handleStop s)) = 0.
Proof.
  intros s. split; [reflexivity|].
  destruct (stop_then_play_restarts s) as (H1 & H2 & _).
  - reflexivity.
  - exact (conj H1 H2).
Defined.

(** X22: where the host has a speech facility, a play after a change to a
    section with another identifier narrates the new section: the text
    handed to the host is the narration text of the section now on display,
    not of the one left. *)
Theorem play_after_change_reads_new_section (s : Reader.State)
    (sec : BookSection) :
  Reader.synthRef s = true ->
  String.eqb (id sec) (id (Reader.section s)) = false ->
  let s' := Reader.handlePlay (Reader.changeSection sec s) in
  Reader.playback s' = Reader.Playing
  /\ Reader.utteranceRef s' = Some (Reader.extractText sec)
  /\ HostLog.lastRequest (Reader.host s') =
     Some (Reader.Speak (Reader.extractText sec) "ru-RU" 1 1)
  /\ Reader.showPlayer s' = false.
Proof.
  intros Hsynth Hid s'. subst s'.
  assert (Hchange : Reader.changeSection sec s =
                    Reader.sectionEffect (Reader.setSection sec s)).
  { unfold Reader.changeSection. now rewrite Hid. }
  rewrite Hchange. rewrite handlePlay_from_idle; [| | reflexivity..].
  - cbn [Reader.playback Reader.isPlaying Reader.isPaused Reader.utteranceRef
         Reader.host Reader.showPlayer Reader.section
         Reader.setIsPaused Reader.setIsPlaying Reader.request
         Reader.setUtterance].
    unfold Reader.sectionEffect, Reader.handleStop.
    cbn [Reader.synthRef Reader.setSection]. rewrite Hsynth.
    cbn [Reader.section Reader.showPlayer Reader.host
         Reader.setShowPlayer Reader.setUtterance Reader.setProgress
         Reader.setIsPaused Reader.setIsPlaying Reader.request
         Reader.setSection].
    repeat split; auto. apply lastRequest_app.
  - unfold Reader.sectionEffect, Reader.handleStop.
    cbn [Reader.synthRef Reader.setSection]. now rewrite Hsynth.
Qed.

Lemma play_after_change_reads_new_section_witness :
  let s := HostLog.after [Reader.OpPlay] Sample.intro1 true in
  Reader.utteranceRef s = Some (Reader.extractText Sample.intro1)
  /\ Reader.utteranceRef
       (Reader.handlePlay (Reader.changeSection Sample.intro2 s))
     = Some (Reader.extractText Sample.intro2).
Proof.
  intros s. split; [reflexivity|].
  destruct (play_after_change_reads_new_section s Sample.intro2)
    as (_ & H & _).
  - reflexivity.
  - reflexivity.
  - exact H.
Defined.

Lemma bookmarkedSections_titles_witness :
  exists found,
    find (App.hasId "intro-2") (App.allSections Sample.book) = Some found
    /\ "Terms" = title found
    /\ In "intro-2" ["gone"; "intro-2"].
Proof.
  apply (bookmarkedSections_titles Sample.book ["gone"; "intro-2"]
           ("intro-2", "Terms")).
  simpl. now left.
Defined.
